(** * timepiece: interval clocks, tickers and hierarchical stop watches

    A shallow embedding of [src/timepiece.py] (classes [BaseClock],
    [Ticker] and [StopWatch]) together with the properties of the timing
    core that the specification states about it.

    Conventions of the embedding.
    - Python [int] is [Z]; a [float] holding seconds is an exact rational
      [Q], so rounding of IEEE doubles is outside the model.
    - [time.perf_counter()] is an input: every method that reads the clock
      takes the reading [now] as an argument.
    - A method is a state transformer [M S A] on the object (or, for
      [StopWatch], on the store of all stop watches) that either returns a
      value or raises a Python exception; the state reached is kept in
      both cases.
    - [collections.deque(maxlen=n)] is modelled after the behaviour the
      Python library documents for it. *)

From Stdlib Require Import ZArith QArith Lia Lqa Sorted Ascii String DecimalString
  DecimalN DecimalPos.
From stdpp Require Import base option list strings relations.

Set Default Proof Using "Type".
Local Open Scope Z_scope.

(** ** Python outcomes *)

Inductive exn : Type :=
  | ValueError
  | TypeError
  | ZeroDivisionError
  | Dangling.   (* not a Python exception: a method was called on an
                   address that holds no object, which no program can do *)

Inductive result (A : Type) : Type :=
  | Ok (a : A)
  | Raise (e : exn).
Arguments Ok {A} a.
Arguments Raise {A} e.

Definition is_ok {A} (r : result A) : bool :=
  match r with Ok _ => true | Raise _ => false end.

(** A method on a receiver of state [S]. *)
Definition M (S A : Type) : Type := S -> result A * S.

Definition ret {S A} (a : A) : M S A := fun s => (Ok a, s).
Definition raise {S A} (e : exn) : M S A := fun s => (Raise e, s).
Definition bind {S A B} (m : M S A) (k : A -> M S B) : M S B :=
  fun s => match m s with
           | (Ok a, s') => k a s'
           | (Raise e, s') => (Raise e, s')
           end.
(** Evaluating an expression that may raise, inside a method. *)
Definition lift {S A} (r : result A) : M S A := fun s => (r, s).

Declare Scope py_scope.
Delimit Scope py_scope with py.
Notation "x <- m ;; k" := (bind m (fun x => k))
  (at level 100, m at next level, right associativity) : py_scope.
Notation "m ;;; k" := (bind m (fun _ => k))
  (at level 100, right associativity) : py_scope.

(** ** collections.deque with a maximum length *)

Module Deque.

Record deque : Type := mk { maxlen : Z; items : list Q }.

(** CPython keeps [maxlen] in a C [ssize_t]; these are its bounds on a
    64-bit build. An [n] outside them is refused with [OverflowError]
    before the deque looks at it; that conversion is not part of the
    model, so what is stated about the constructors' verdict on a
    capacity is stated for capacities within these bounds. *)
Definition PY_SSIZE_T_MAX : Z := 2 ^ 63 - 1.
Definition PY_SSIZE_T_MIN : Z := - 2 ^ 63.

(** [deque(maxlen=n)]: a negative [n] is rejected, zero is accepted. *)
Definition new (n : Z) : result deque :=
  if n <? 0 then Raise ValueError else Ok (mk n []).

Definition len (d : deque) : Z := Z.of_nat (length (items d)).

(** [d.append(x)]: the item is added on the right; when the deque then
    holds more than [maxlen] items, one item is removed on the left. *)
Definition append (x : Q) (d : deque) : deque :=
  let xs := items d ++ [x] in
  if maxlen d <? Z.of_nat (length xs)
  then mk (maxlen d) (drop 1 xs)
  else mk (maxlen d) xs.

(** [islice(d, n)]. *)
Definition islice (d : deque) (n : nat) : list Q := take n (items d).

End Deque.
Import Deque.

(** The last [n] elements of a list, in their order. *)
Definition last_n {A} (n : nat) (l : list A) : list A :=
  drop (length l - n) l.

(** ** Built-ins used by the statistics *)

(** [min(xs)]: the first least element; raises on an empty sequence. *)
Definition py_min (xs : list Q) : result Q :=
  match xs with
  | [] => Raise ValueError
  | x :: r => Ok (fold_left (fun m y => if Qlt_le_dec y m then y else m) r x)
  end.

(** [max(xs)]: the first greatest element; raises on an empty sequence. *)
Definition py_max (xs : list Q) : result Q :=
  match xs with
  | [] => Raise ValueError
  | x :: r => Ok (fold_left (fun m y => if Qlt_le_dec m y then y else m) r x)
  end.

(** [sum(xs)], starting from 0. The sum is exact here and rounded to a
    double in Python, as is the quotient below: the properties stated
    about them say which value is computed and how it compares with 0,
    and rest on no law of exact arithmetic that rounding breaks. *)
Definition py_sum (xs : list Q) : Q := fold_left Qplus xs 0%Q.

(** [a / b]: raises on a zero divisor. *)
Definition py_truediv (a b : Q) : result Q :=
  if Qeq_bool b 0 then Raise ZeroDivisionError else Ok (a / b)%Q.

(** ** Text: joining and formatting *)

Definition nl : string := String (ascii_of_nat 10) "".

(** [sep.join(xs)]. *)
Fixpoint join (sep : string) (xs : list string) : string :=
  match xs with
  | [] => ""
  | [x] => x
  | x :: r => x +:+ sep +:+ join sep r
  end.

(** [s * n]. *)
Fixpoint repeat_str (s : string) (n : nat) : string :=
  match n with
  | O => ""
  | S n' => s +:+ repeat_str s n'
  end.

Definition digit (n : Z) : ascii := ascii_of_nat (48 + Z.to_nat n).

Definition decimal (n : Z) : string :=
  NilEmpty.string_of_uint (N.to_uint (Z.to_N n)).

(** The integer nearest to [n / d] for [0 <= n], a tie going to the even
    neighbour. *)
Definition round_half_even (n : Z) (d : positive) : Z :=
  let q := n / Z.pos d in
  let r := n mod Z.pos d in
  match 2 * r ?= Z.pos d with
  | Lt => q
  | Gt => q + 1
  | Eq => if Z.even q then q else q + 1
  end.

Definition frac4 (f : Z) : string :=
  String (digit (f / 1000))
    (String (digit (f / 100 mod 10))
       (String (digit (f / 10 mod 10))
          (String (digit (f mod 10)) ""))).

(** [f'{x:.4f}']: sign, integer part, a point and four digits. *)
Definition format_4f (x : Q) : string :=
  let r := round_half_even (Z.abs (Qnum x) * 10000) (Qden x) in
  (if Qnum x <? 0 then "-" else "")
    +:+ decimal (r / 10000) +:+ "." +:+ frac4 (r mod 10000).




(** ** BaseClock *)

Module BaseClock.

Record t : Type := mk { intervals : deque }.

Definition MAX_REPR_INTERVALS : nat := 5.

(** [__init__(self, max_intervals)]. *)
Definition __init__ (max_intervals : Z) : result t :=
  match Deque.new max_intervals with
  | Ok d => Ok (mk d)
  | Raise e => Raise e
  end.

Definition min : M t Q := fun self =>
  (if 0 <? len (intervals self) then py_min (items (intervals self))
   else Ok 0%Q, self).

Definition max : M t Q := fun self =>
  (if 0 <? len (intervals self) then py_max (items (intervals self))
   else Ok 0%Q, self).

Definition mean : M t Q := fun self =>
  (if 0 <? len (intervals self)
   then py_truediv (py_sum (items (intervals self)))
                   (inject_Z (len (intervals self)))
   else Ok 0%Q, self).

Definition freq : M t Q :=
  (mean <- mean ;;
   if Qlt_le_dec 0 mean then lift (py_truediv 1 mean) else ret 0%Q)%py.

(** [self.intervals.append(x)], the only mutation of the history. *)
Definition record (x : Q) : M t unit := fun self =>
  (Ok tt, mk (Deque.append x (intervals self))).

(** Successive appends, one per sample, oldest first. *)
Definition records (xs : list Q) (self : t) : t :=
  fold_left (fun s x => snd (record x s)) xs self.

(** The strings listed for [intervals=[...]]. *)
Definition iv_list (self : t) : list string :=
  let shown := format_4f <$> islice (intervals self) MAX_REPR_INTERVALS in
  if Z.of_nat MAX_REPR_INTERVALS <? len (intervals self)
  then shown ++ ["..."]
  else shown.

(** [_repr_props(self)], the generator consumed to the end. *)
Definition _repr_props : M t (list string) := fun self =>
  if 0 <? len (intervals self)
  then (mn <- min ;;
        me <- mean ;;
        mx <- max ;;
        ret [ "intervals=[" +:+ join ", " (iv_list self) +:+ "]";
              "min=" +:+ format_4f mn;
              "mean=" +:+ format_4f me;
              "max=" +:+ format_4f mx ])%py self
  else ret [] self.

(** [__repr__(self)]; [cls] is [self.__class__.__name__]. *)
Definition __repr__ (cls : string) : M t string :=
  (props <- _repr_props ;;
   ret ("<" +:+ join " " (cls :: props) +:+ ">"))%py.

End BaseClock.

(** ** Ticker *)

Module Ticker.

Record t : Type := mk { base : BaseClock.t; _last_tick : option Q }.

(** [__init__(self, max_intervals)]. *)
Definition __init__ (max_intervals : Z) : result t :=
  match BaseClock.__init__ max_intervals with
  | Ok b => Ok (mk b None)
  | Raise e => Raise e
  end.

(** [tick(self)], with [now] the clock reading taken on its first line. *)
Definition tick (now : Q) : M t unit := fun self =>
  let b := match _last_tick self with
           | Some last => snd (BaseClock.record (now - last)%Q (base self))
           | None => base self
           end in
  (Ok tt, mk b (Some now)).

(** Successive calls of [tick], one per clock reading. *)
Definition ticks (readings : list Q) (self : t) : t :=
  fold_left (fun s now => snd (tick now s)) readings self.

Definition samples (self : t) : list Q :=
  items (BaseClock.intervals (base self)).

(** The time elapsed between each reading and the next one. *)
Fixpoint deltas (readings : list Q) : list Q :=
  match readings with
  | a :: (b :: _) as r => (b - a)%Q :: deltas r
  | _ => []
  end.

End Ticker.

(** ** StopWatch *)

Module StopWatch.

(** Stop watches refer to each other ([parent], [children]), so they
    live in a store and are named by their address in it. *)
Abbreviation addr := nat (only parsing).

Record t : Type := mk {
  base : BaseClock.t;
  name : string;
  parent : option addr;
  children : list (string * addr);   (* a dict, in insertion order *)
  _start : option Q
}.

Abbreviation store := (list t) (only parsing).

Definition samples (o : t) : list Q := items (BaseClock.intervals (base o)).
Definition capacity (o : t) : Z := maxlen (BaseClock.intervals (base o)).

Definition set_base (b : BaseClock.t) (o : t) : t :=
  mk b (name o) (parent o) (children o) (_start o).
Definition set_parent (p : option addr) (o : t) : t :=
  mk (base o) (name o) p (children o) (_start o).
Definition set_children (d : list (string * addr)) (o : t) : t :=
  mk (base o) (name o) (parent o) d (_start o).
Definition set_start (s : option Q) (o : t) : t :=
  mk (base o) (name o) (parent o) (children o) s.

(** [name in d] and [d[name]] on the children dict. *)
Fixpoint dict_get (d : list (string * addr)) (k : string) : option addr :=
  match d with
  | [] => None
  | (k', v) :: r => if String.eqb k' k then Some v else dict_get r k
  end.

(** [d[name] = v]: an existing key keeps its place, a new one goes last. *)
Fixpoint dict_set (d : list (string * addr)) (k : string) (v : addr)
  : list (string * addr) :=
  match d with
  | [] => [(k, v)]
  | (k', v') :: r =>
      if String.eqb k' k then (k', v) :: r else (k', v') :: dict_set r k v
  end.

(** Reading and updating the attributes of the object at an address. *)
Definition load (a : addr) : M store t := fun h =>
  match h !! a with
  | Some o => (Ok o, h)
  | None => (Raise Dangling, h)
  end.

Definition modify (a : addr) (f : t -> t) : M store unit := fun h =>
  match h !! a with
  | Some o => (Ok tt, <[a := f o]> h)
  | None => (Raise Dangling, h)
  end.

(** A method inherited from [BaseClock], run on the object at [a]. *)
Definition on_base {A} (a : addr) (m : M BaseClock.t A) : M store A :=
  (o <- load a ;;
   let (r, b) := m (base o) in
   modify a (set_base b) ;;;
   lift r)%py.

(** [StopWatch(name, max_intervals)]: a new object at the next address. *)
Definition __init__ (nm : string) (max_intervals : Z) : M store addr :=
  fun h =>
    match BaseClock.__init__ max_intervals with
    | Ok b => (Ok (length h), h ++ [mk b nm None [] None])
    | Raise e => (Raise e, h)
    end.

(** [self.child(name, max_intervals)]. *)
Definition child (self : addr) (nm : string) (max_intervals : option Z)
  : M store addr :=
  (o <- load self ;;
   match dict_get (children o) nm with
   | Some c => ret c
   | None =>
       let n := match max_intervals with
                | Some n => n
                | None => capacity o
                end in
       c <- __init__ nm n ;;
       modify c (set_parent (Some self)) ;;;
       modify self (fun os => set_children (dict_set (children os) nm c) os) ;;;
       ret c
   end)%py.

(** The object that [child] creates below [self], and the store it
    leaves when [self] holds [o] and has no child of that name yet. *)
Definition newborn (self : addr) (nm : string) (n : Z) : t :=
  mk (BaseClock.mk (Deque.mk n [])) nm (Some self) [] None.

Definition adopt (h : store) (self : addr) (o : t) (nm : string) (n : Z)
  : store :=
  <[self := set_children (children o ++ [(nm, length h)]) o]> h
    ++ [newborn self nm n].

(** [self.parents()], consumed to the end. The loop follows [parent]
    links and stops at [None] (a stop watch defines neither [__bool__]
    nor [__len__], so [not current] holds for [None] only); [fuel] bounds
    the number of iterations, [None] means that the bound was hit. *)
Fixpoint parents_from (fuel : nat) (h : store) (current : addr)
  : option (list addr) :=
  match fuel with
  | O => None
  | S fuel' =>
      match h !! current with
      | None => None
      | Some o =>
          match parent o with
          | None => Some []
          | Some p => cons p <$> parents_from fuel' h p
          end
      end
  end.

(** A chain without a cycle visits each object at most once. *)
Definition parents (h : store) (self : addr) : option (list addr) :=
  parents_from (length h) h self.

Definition name_of (h : store) (a : addr) : string :=
  match h !! a with Some o => name o | None => "" end.

(** [self.full_name()]. *)
Definition full_name (h : store) (self : addr) : option string :=
  ps ← parents h self;
  let family := name_of h self :: map (name_of h) ps in
  Some (join "." (reverse family)).

(** [self.level]. *)
Definition level (h : store) (self : addr) : option nat :=
  length <$> parents h self.

(** [__enter__(self)], with the clock reading [now]. *)
Definition __enter__ (now : Q) (self : addr) : M store addr :=
  (modify self (set_start (Some now)) ;;; ret self)%py.

(** [__exit__(self, *_)], with the clock reading [now]. Subtracting
    [None] from a float raises [TypeError] before anything is stored. *)
Definition __exit__ (now : Q) (self : addr) : M store unit :=
  (o <- load self ;;
   match _start o with
   | None => raise TypeError
   | Some s =>
       on_base self (BaseClock.record (now - s)%Q) ;;;
       modify self (set_start None)
   end)%py.

(** The object that [__exit__] leaves behind when it records [x]. *)
Definition measured (x : Q) (o : t) : t :=
  set_start None (set_base (snd (BaseClock.record x (base o))) o).

(** [with self: body], the statement as Python runs it: [__enter__],
    the body, then [__exit__] whether the body returned or raised;
    [__exit__] returns [None], so an exception of the body goes on. *)
Definition with_ {A} (self : addr) (t_enter t_exit : Q)
    (body : addr -> M store A) : M store A := fun h =>
  match __enter__ t_enter self h with
  | (Raise e, h1) => (Raise e, h1)
  | (Ok v, h1) =>
      match body v h1 with
      | (Ok a, h2) =>
          match __exit__ t_exit self h2 with
          | (Ok _, h3) => (Ok a, h3)
          | (Raise e, h3) => (Raise e, h3)
          end
      | (Raise e, h2) =>
          match __exit__ t_exit self h2 with
          | (Ok _, h3) => (Raise e, h3)
          | (Raise e', h3) => (Raise e', h3)
          end
      end
  end.

(** Successive [with self: pass] statements, one per pair of clock
    readings (on entry, on exit). *)
Fixpoint brackets (rs : list (Q * Q)) (self : addr) : M store unit :=
  match rs with
  | [] => ret tt
  | (te, tx) :: r =>
      (with_ self te tx (fun _ => ret tt) ;;; brackets r self)%py
  end.

(** A body that leaves the bracket of [self] alone. It may do anything
    else: create children of [self], time other nodes, raise. Whatever
    the store it starts from, [self] keeps its history and its
    [_start]. *)
Definition keeps {A} (self : addr) (body : addr -> M store A) : Prop :=
  forall h o, h !! self = Some o ->
    exists o', snd (body self h) !! self = Some o'
      /\ base o' = base o /\ _start o' = _start o.

(** Successive [with self: body] statements, one per triple of entry
    reading, exit reading and body. Each starts in the store the one
    before left, whether that one ended normally or with an exception
    (which the caller handled). *)
Definition bracket_seq {A} (rs : list (Q * Q * (addr -> M store A)))
    (self : addr) (h : store) : store :=
  fold_left (fun h r => snd (with_ self r.1.1 r.1.2 r.2 h)) rs h.

(** The two states of the measurement bracket of a node. *)
Inductive phase : Type := IDLE | ACTIVE.

Definition phase_of (o : t) : phase :=
  match _start o with
  | Some _ => ACTIVE
  | None => IDLE
  end.

(** The shape of a store that the constructor and [child] build: a
    parent is older than its child, every entry of a [children] dict
    names an object whose [parent] is the owner of the dict and whose
    [name] is the key, and no capacity is negative. *)
Definition node_ok (h : store) (a : addr) (o : t) : Prop :=
  (forall p, parent o = Some p -> (p < a)%nat)
  /\ (forall k c, (k, c) ∈ children o ->
        parent <$> h !! c = Some (Some a) /\ name <$> h !! c = Some k)
  /\ 0 <= capacity o.

Definition wf (h : store) : Prop :=
  forall a o, h !! a = Some o -> node_ok h a o.

(** [ps] lists the ancestors of [a]: its parent first, the root last. *)
Inductive chain (h : store) : addr -> list addr -> Prop :=
  | chain_root a o :
      h !! a = Some o -> parent o = None -> chain h a []
  | chain_step a o p ps :
      h !! a = Some o -> parent o = Some p -> chain h p ps ->
      chain h a (p :: ps).

(** [_repr_props(self)]: the name, then the properties of the base. *)
Definition _repr_props (self : addr) : M store (list string) :=
  (o <- load self ;;
   props <- on_base self BaseClock._repr_props ;;
   ret (("name=" +:+ name o) :: props))%py.

(** Rendering each child in turn; the first one that fails decides. *)
Fixpoint repr_all (f : addr -> option (result string)) (cs : list addr)
  : option (result (list string)) :=
  match cs with
  | [] => Some (Ok [])
  | c :: r =>
      match f c with
      | None => None
      | Some (Raise e) => Some (Raise e)
      | Some (Ok s) =>
          match repr_all f r with
          | None => None
          | Some (Raise e) => Some (Raise e)
          | Some (Ok ss) => Some (Ok (s :: ss))
          end
      end
  end.

(** The f-strings of [__repr__]: the text of a node at depth [lvl]
    with the properties [props], and its [children=[...]] property for
    the rendered children [rs]. *)
Definition render_node (lvl : nat) (props : list string) : string :=
  (if (0 <? lvl)%nat then nl else "") +:+ repeat_str "    " lvl
    +:+ "<" +:+ "StopWatch" +:+ " " +:+ join " " props +:+ ">".

Definition children_prop (lvl : nat) (rs : list string) : string :=
  "children=[" +:+ join ", " rs +:+ nl +:+ repeat_str "    " lvl +:+ "]".

(** [__repr__(self)]. It reads the store and changes nothing. [fuel]
    bounds the nesting of the recursion over [children]; [None] means
    that the bound was hit or that [self.level] did not return. *)
Fixpoint repr_from (fuel : nat) (h : store) (self : addr)
  : option (result string) :=
  match fuel with
  | O => None
  | S fuel' =>
      match level h self, h !! self with
      | Some lvl, Some o =>
          match fst (_repr_props self h) with
          | Raise e => Some (Raise e)
          | Ok props =>
              match children o with
              | [] => Some (Ok (render_node lvl props))
              | _ :: _ =>
                  match repr_all (repr_from fuel' h) (snd <$> children o) with
                  | None => None
                  | Some (Raise e) => Some (Raise e)
                  | Some (Ok rs) =>
                      Some (Ok (render_node lvl
                                  (props ++ [children_prop lvl rs])))
                  end
              end
          end
      | _, _ => None
      end
  end.

(** No chain of children is longer than the store. *)
Definition __repr__ (h : store) (self : addr) : option (result string) :=
  repr_from (length h) h self.

(** The chain root -> a -> b, built with the constructor and [child]. *)
Definition family : M store (addr * addr * addr) :=
  (root <- __init__ "root" 10 ;;
   a <- child root "a" None ;;
   b <- child a "b" None ;;
   ret (root, a, b))%py.

(** The rest of the shape of a store built by calls: every node with a
    parent is registered under its own name in the children of that
    parent, and no history is longer than its capacity. *)
Definition tidy (h : store) : Prop :=
  forall a o, h !! a = Some o ->
    (forall p, parent o = Some p ->
       exists op, h !! p = Some op
                  /\ dict_get (children op) (name o) = Some a)
    /\ len (BaseClock.intervals (base o)) <= capacity o.

Definition shape (h : store) : Prop := wf h /\ tidy h.

(** One call of the constructor or of a method, on any arguments,
    whether it returns or raises; and the stores a program can build. *)
Definition call (h h' : store) : Prop :=
  (exists nm n, h' = snd (__init__ nm n h))
  \/ (exists self nm mi, h' = snd (child self nm mi h))
  \/ (exists now self, h' = snd (__enter__ now self h))
  \/ (exists now self, h' = snd (__exit__ now self h)).

Definition built (h : store) : Prop := rtc call [] h.

(** The stop watch program at the end of the module (the [__main__]
    block), with [r i] the i-th reading of the clock. *)
Definition main_stopwatch (r : nat -> Q) : M store addr :=
  (root <- __init__ "root" 10 ;;
   with_ root (r 0%nat) (r 13%nat) (fun root =>
     task1 <- child root "task1" (Some 5) ;;
     with_ task1 (r 1%nat) (r 10%nat) (fun task1 =>
       subtask1_1 <- child task1 "subtask1_1" None ;;
       with_ subtask1_1 (r 2%nat) (r 3%nat) (fun _ => ret tt) ;;;
       subtask1_2 <- child task1 "subtask1_2" None ;;
       with_ subtask1_2 (r 4%nat) (r 5%nat) (fun _ => ret tt) ;;;
       subtask1_3 <- child task1 "subtask1_3" None ;;
       with_ subtask1_3 (r 6%nat) (r 7%nat) (fun _ => ret tt) ;;;
       with_ subtask1_1 (r 8%nat) (r 9%nat) (fun _ => ret tt)) ;;;
     task2 <- child root "task2" None ;;
     with_ task2 (r 11%nat) (r 12%nat) (fun _ => ret tt)) ;;;
   ret root)%py.

End StopWatch.

(** * Concrete runs *)

(** The output shown in the docstring of [Ticker]. *)
Example ticker_docstring :
  fst (BaseClock.__repr__ "Ticker"
         (BaseClock.mk
            (Deque.mk 5 [899 # 10000; 632 # 10000; 543 # 10000;
                         713 # 10000; 681 # 10000]%Q)))
  = Ok "<Ticker intervals=[0.0899, 0.0632, 0.0543, 0.0713, 0.0681] min=0.0543 mean=0.0694 max=0.0899>".
Proof. vm_compute. reflexivity. Qed.

(** More than five intervals: the sixth and later ones become [...]. *)
Example ticker_ellipsis :
  fst (BaseClock.__repr__ "Ticker"
         (Ticker.base
            (Ticker.ticks [1; 2; 4; 7; 11; 16; 22; 29]%Q
               (Ticker.mk (BaseClock.mk (Deque.mk 10 [])) None))))
  = Ok "<Ticker intervals=[1.0000, 2.0000, 3.0000, 4.0000, 5.0000, ...] min=1.0000 mean=4.0000 max=7.0000>".
Proof. vm_compute. reflexivity. Qed.

Example format_4f_values :
  format_4f (123456789 # 1000) = "123456.7890"
  /\ format_4f (-1 # 100000) = "-0.0000"
  /\ format_4f (3 # 20000) = "0.0002"
  /\ format_4f (1 # 20000) = "0.0000".
Proof. vm_compute. repeat split. Qed.

(** A history of capacity 0 accepts appends and keeps nothing. *)
Example capacity_zero_keeps_nothing :
  items (BaseClock.intervals
           (BaseClock.records [1; 2; 3]%Q (BaseClock.mk (Deque.mk 0 []))))
  = [].
Proof. reflexivity. Qed.

(** The tree root -> a -> b, with one bracket around root and, inside
    it, one around a. *)
Example family_rendering :
  let run :=
    (nodes <- StopWatch.family ;;
     let '(root, a, b) := nodes in
     StopWatch.with_ root 1 2
       (fun _ => StopWatch.with_ a (3 # 2) (7 # 4) (fun _ => ret tt)) ;;;
     ret root)%py [] in
  fst run = Ok 0%nat
  /\ StopWatch.__repr__ (snd run) 0%nat
     = Some (Ok ("<StopWatch name=root intervals=[1.0000] min=1.0000 mean=1.0000 max=1.0000 children=["
                 +:+ nl +:+ "    <StopWatch name=a intervals=[0.2500] min=0.2500 mean=0.2500 max=0.2500 children=["
                 +:+ nl +:+ "        <StopWatch name=b>"
                 +:+ nl +:+ "    ]>"
                 +:+ nl +:+ "]>")).
Proof. vm_compute. split; reflexivity. Qed.

(** Using a node inside its own open bracket: the inner exit clears
    [_start], so the outer exit raises and only one sample is kept. *)
Example nested_self_reuse :
  let root := StopWatch.mk (BaseClock.mk (Deque.mk 10 [])) "root" None [] None in
  let run := StopWatch.with_ 0%nat 1 4
               (fun r => StopWatch.with_ r 2 3 (fun _ => ret tt)) [root] in
  fst run = Raise TypeError
  /\ StopWatch.samples <$> snd run !! 0%nat = Some [1%Q].
Proof. vm_compute. split; reflexivity. Qed.

(** * Properties *)

(** ** The bounded history *)

Section History.

Lemma last_n_length {A} (n : nat) (l : list A) :
  length (last_n n l) = Nat.min n (length l).
Proof. unfold last_n. rewrite length_drop. lia. Qed.

Lemma last_n_all {A} (n : nat) (l : list A) :
  (length l <= n)%nat -> last_n n l = l.
Proof.
  intros Hle. unfold last_n.
  replace (length l - n)%nat with 0%nat by lia. reflexivity.
Qed.

Lemma last_n_snoc {A} (n : nat) (l : list A) (x : A) :
  last_n n (last_n n l ++ [x]) = last_n n (l ++ [x]).
Proof.
  unfold last_n.
  rewrite <- (drop_app_le l [x]) by lia.
  rewrite drop_drop. f_equal.
  rewrite length_drop, !length_app. simpl. lia.
Qed.

Lemma append_maxlen (x : Q) (d : deque) : maxlen (append x d) = maxlen d.
Proof. unfold append. destruct (_ <? _); reflexivity. Qed.

(** One append keeps the newest [maxlen] items. *)
Lemma append_items (x : Q) (d : deque) :
  0 <= maxlen d -> len d <= maxlen d ->
  items (append x d) = last_n (Z.to_nat (maxlen d)) (items d ++ [x]).
Proof.
  unfold len, append. intros Hc Hlen.
  destruct (Z.ltb_spec (maxlen d) (Z.of_nat (length (items d ++ [x]))))
    as [Hlt | Hge]; simpl.
  - unfold last_n. f_equal.
    rewrite length_app in *. simpl in *. lia.
  - symmetry. apply last_n_all. lia.
Qed.

Lemma append_len (x : Q) (d : deque) :
  0 <= maxlen d -> len d <= maxlen d -> len (append x d) <= maxlen d.
Proof.
  intros Hc Hlen. unfold len. rewrite append_items by assumption.
  rewrite last_n_length. lia.
Qed.

Lemma records_snoc (xs : list Q) (x : Q) (b : BaseClock.t) :
  BaseClock.records (xs ++ [x]) b
  = snd (BaseClock.record x (BaseClock.records xs b)).
Proof. unfold BaseClock.records. rewrite fold_left_app. reflexivity. Qed.

(** After any sequence of appends to an empty history of capacity [C]
    the history holds the newest [C] samples. *)
Lemma records_newest (C : Z) (xs : list Q) :
  0 <= C ->
  let d := BaseClock.intervals
             (BaseClock.records xs (BaseClock.mk (Deque.mk C []))) in
  maxlen d = C /\ items d = last_n (Z.to_nat C) xs.
Proof.
  intros HC. induction xs as [| x xs IH] using rev_ind; simpl.
  - split; reflexivity.
  - rewrite records_snoc. simpl in *. destruct IH as [Hm Hi].
    rewrite append_maxlen. split; [assumption |].
    rewrite append_items.
    + rewrite Hm, Hi. apply last_n_snoc.
    + lia.
    + unfold len. rewrite Hm, Hi, last_n_length. lia.
Qed.

End History.

(** C1. A history of capacity [C > 0] that received the samples [xs], in
    this order, stores the last [min (length xs) C] of them in their
    order; it never holds more than [C] samples; one more append at
    capacity drops the oldest sample only, and below capacity drops
    nothing. *)
Theorem C1_bounded_fifo_history (C : Z) (xs : list Q) :
  0 < C ->
  exists b0, BaseClock.__init__ C = Ok b0 /\
    let b := BaseClock.records xs b0 in
    let stored := items (BaseClock.intervals b) in
    stored = last_n (Nat.min (length xs) (Z.to_nat C)) xs /\
    Z.of_nat (length stored) <= C /\
    forall x,
      items (BaseClock.intervals (snd (BaseClock.record x b)))
      = if Z.of_nat (length stored) =? C
        then drop 1 stored ++ [x]
        else stored ++ [x].
Proof.
  intros HC. exists (BaseClock.mk (Deque.mk C [])). split.
  { unfold BaseClock.__init__, Deque.new.
    destruct (Z.ltb_spec C 0); [lia | reflexivity]. }
  destruct (records_newest C xs ltac:(lia)) as [Hm Hi]. simpl in *.
  set (d := BaseClock.intervals _) in *.
  assert (Hlen : Z.of_nat (length (items d)) <= C).
  { rewrite Hi, last_n_length. lia. }
  split; [| split; [exact Hlen |]].
  - rewrite Hi. unfold last_n. f_equal. lia.
  - intros x. unfold append. rewrite Hm, length_app. simpl.
    destruct (Z.eqb_spec (Z.of_nat (length (items d))) C) as [He | Hne].
    + destruct (Z.ltb_spec C (Z.of_nat (length (items d) + 1))); [| lia].
      simpl. destruct (items d) as [| y r] eqn:Hd; simpl in *; [lia |].
      rewrite drop_0. reflexivity.
    + destruct (Z.ltb_spec C (Z.of_nat (length (items d) + 1))); [lia |].
      reflexivity.
Qed.

Lemma C1_bounded_fifo_history_witness :
  exists b0, BaseClock.__init__ 3 = Ok b0 /\
    let b := BaseClock.records [1; 2; 3; 4; 5]%Q b0 in
    let stored := items (BaseClock.intervals b) in
    stored = last_n (Nat.min 5 (Z.to_nat 3)) [1; 2; 3; 4; 5]%Q /\
    Z.of_nat (length stored) <= 3 /\
    forall x,
      items (BaseClock.intervals (snd (BaseClock.record x b)))
      = if Z.of_nat (length stored) =? 3
        then drop 1 stored ++ [x]
        else stored ++ [x].
Proof. apply (C1_bounded_fifo_history 3 [1; 2; 3; 4; 5]%Q). lia. Defined.

(** ** The ticker *)

Section TickerFacts.

Lemma deltas_length (ts : list Q) :
  length (Ticker.deltas ts) = (length ts - 1)%nat.
Proof.
  induction ts as [| a [| b r] IH]; simpl in *; try reflexivity.
  rewrite IH. lia.
Qed.

(** Once a baseline exists, every tick appends one difference. *)
Lemma ticks_armed (ts : list Q) (b : BaseClock.t) (last : Q) :
  Ticker.base (Ticker.ticks ts (Ticker.mk b (Some last)))
  = BaseClock.records (Ticker.deltas (last :: ts)) b.
Proof.
  revert b last. induction ts as [| now r IH]; intros b last.
  - reflexivity.
  - change (Ticker.ticks (now :: r) (Ticker.mk b (Some last)))
      with (Ticker.ticks r
              (Ticker.mk (snd (BaseClock.record (now - last)%Q b)) (Some now))).
    rewrite IH. reflexivity.
Qed.

Lemma ticks_last (ts : list Q) (t : Ticker.t) (now : Q) :
  Ticker._last_tick (Ticker.ticks (ts ++ [now]) t) = Some now.
Proof. unfold Ticker.ticks. rewrite fold_left_app. reflexivity. Qed.

End TickerFacts.

(** C3. A new ticker of capacity [C] holds no sample and no baseline. Its
    first tick records nothing. After the ticks at the readings [ts]
    ([K = length ts >= 1]) it holds [min (K - 1) C] samples, namely the
    newest of the differences of successive readings; and one more tick
    appends exactly the time elapsed since the previous tick. *)
Theorem C3_ticker_interval_count (C : Z) (ts : list Q) :
  0 <= C -> (1 <= length ts)%nat ->
  exists t0, Ticker.__init__ C = Ok t0 /\
    Ticker.samples t0 = [] /\ Ticker._last_tick t0 = None /\
    (forall now, Ticker.samples (snd (Ticker.tick now t0)) = []) /\
    let t := Ticker.ticks ts t0 in
    length (Ticker.samples t) = Nat.min (length ts - 1) (Z.to_nat C) /\
    Ticker.samples t = last_n (Z.to_nat C) (Ticker.deltas ts) /\
    exists last, Ticker._last_tick t = Some last /\
      forall now,
        Ticker.base (snd (Ticker.tick now t))
        = snd (BaseClock.record (now - last)%Q (Ticker.base t)).
Proof.
  intros HC HK.
  exists (Ticker.mk (BaseClock.mk (Deque.mk C [])) None). split.
  { unfold Ticker.__init__, BaseClock.__init__, Deque.new.
    destruct (Z.ltb_spec C 0); [lia | reflexivity]. }
  do 3 (split; [reflexivity |]). simpl.
  assert (Hs : Ticker.samples
                 (Ticker.ticks ts (Ticker.mk (BaseClock.mk (Deque.mk C [])) None))
               = last_n (Z.to_nat C) (Ticker.deltas ts)).
  { destruct ts as [| t1 r]; [simpl in HK; lia |].
    change (Ticker.ticks (t1 :: r) (Ticker.mk (BaseClock.mk (Deque.mk C [])) None))
      with (Ticker.ticks r (Ticker.mk (BaseClock.mk (Deque.mk C [])) (Some t1))).
    unfold Ticker.samples. rewrite ticks_armed.
    apply (records_newest C (Ticker.deltas (t1 :: r)) HC). }
  split; [| split; [exact Hs |]].
  - rewrite Hs, last_n_length, deltas_length. lia.
  - destruct (exists_last (l := ts)) as [r [now Hts]].
    { intros ->. simpl in HK. lia. }
    exists now. subst ts.
    pose proof (ticks_last r (Ticker.mk (BaseClock.mk (Deque.mk C [])) None) now)
      as Hlast.
    split; [exact Hlast |].
    intros now'. unfold Ticker.tick. simpl. rewrite Hlast. reflexivity.
Qed.

Lemma C3_ticker_interval_count_witness :
  exists t0, Ticker.__init__ 2 = Ok t0 /\
    Ticker.samples t0 = [] /\ Ticker._last_tick t0 = None /\
    (forall now, Ticker.samples (snd (Ticker.tick now t0)) = []) /\
    let t := Ticker.ticks [1; 3; 6; 10]%Q t0 in
    length (Ticker.samples t) = Nat.min (4 - 1) (Z.to_nat 2) /\
    Ticker.samples t = last_n (Z.to_nat 2) (Ticker.deltas [1; 3; 6; 10]%Q) /\
    exists last, Ticker._last_tick t = Some last /\
      forall now,
        Ticker.base (snd (Ticker.tick now t))
        = snd (BaseClock.record (now - last)%Q (Ticker.base t)).
Proof.
  apply (C3_ticker_interval_count 2 [1; 3; 6; 10]%Q); [lia | simpl; lia].
Defined.

(** ** Construction *)

(** C5, as the code has it. For a capacity that fits a C [ssize_t], the
    three constructors reject a negative capacity with [ValueError] and
    leave the store as it was; they accept every capacity from zero on,
    zero included, and start with an empty history of that capacity. *)
Theorem C5_construction_capacity (c : Z) (nm : string) (h : StopWatch.store) :
  PY_SSIZE_T_MIN <= c <= PY_SSIZE_T_MAX ->
  BaseClock.__init__ c
  = (if c <? 0 then Raise ValueError else Ok (BaseClock.mk (Deque.mk c [])))
  /\ Ticker.__init__ c
  = (if c <? 0 then Raise ValueError
     else Ok (Ticker.mk (BaseClock.mk (Deque.mk c [])) None))
  /\ StopWatch.__init__ nm c h
  = (if c <? 0 then (Raise ValueError, h)
     else (Ok (length h),
           h ++ [StopWatch.mk (BaseClock.mk (Deque.mk c [])) nm None [] None])).
Proof.
  intros _.
  unfold StopWatch.__init__, Ticker.__init__, BaseClock.__init__, Deque.new.
  destruct (c <? 0); repeat split; reflexivity.
Qed.

Lemma C5_construction_capacity_witness :
  BaseClock.__init__ (-1) = Raise ValueError
  /\ Ticker.__init__ (-1) = Raise ValueError
  /\ StopWatch.__init__ "root" (-1) [] = (Raise ValueError, []).
Proof.
  apply (C5_construction_capacity (-1) "root" []).
  unfold PY_SSIZE_T_MIN, PY_SSIZE_T_MAX. lia.
Defined.

(** C5 as stated fails: capacity zero is not positive, and all three
    constructors accept it. *)
Lemma C5_zero_capacity_accepted :
  is_ok (BaseClock.__init__ 0) = true
  /\ is_ok (Ticker.__init__ 0) = true
  /\ is_ok (fst (StopWatch.__init__ "root" 0 [])) = true.
Proof. repeat split; reflexivity. Qed.

(** ** Statistics *)

Section Statistics.

Lemma truediv_ok (a b : Q) : ~ (b == 0)%Q -> py_truediv a b = Ok (a / b)%Q.
Proof.
  intros Hb. unfold py_truediv.
  destruct (Qeq_bool b 0) eqn:E; [| reflexivity].
  apply Qeq_bool_eq in E. contradiction.
Qed.

Lemma min_total (b : BaseClock.t) : is_ok (fst (BaseClock.min b)) = true.
Proof.
  unfold BaseClock.min, len. simpl.
  destruct (items (BaseClock.intervals b)); reflexivity.
Qed.

Lemma max_total (b : BaseClock.t) : is_ok (fst (BaseClock.max b)) = true.
Proof.
  unfold BaseClock.max, len. simpl.
  destruct (items (BaseClock.intervals b)); reflexivity.
Qed.

(** The mean never divides by zero: the divisor is a positive length. *)
Lemma mean_total (b : BaseClock.t) :
  BaseClock.mean b
  = (Ok (if 0 <? len (BaseClock.intervals b)
         then (py_sum (items (BaseClock.intervals b))
               / inject_Z (len (BaseClock.intervals b)))%Q
         else 0%Q), b).
Proof.
  unfold BaseClock.mean.
  destruct (Z.ltb_spec 0 (len (BaseClock.intervals b))) as [Hlt | Hge];
    [| reflexivity].
  rewrite truediv_ok; [reflexivity |].
  unfold Qeq. simpl. lia.
Qed.

End Statistics.

(** C6. On a history without samples [min], [max], [mean] and [freq]
    return 0 and raise nothing. On every history the four queries return
    a value and leave the history as it is, and [freq] is [1 / mean] when
    the mean is positive and 0 otherwise. *)
Theorem C6_vacuous_statistics (b : BaseClock.t) :
  (items (BaseClock.intervals b) = [] ->
     BaseClock.min b = (Ok 0%Q, b) /\ BaseClock.max b = (Ok 0%Q, b)
     /\ BaseClock.mean b = (Ok 0%Q, b) /\ BaseClock.freq b = (Ok 0%Q, b))
  /\ is_ok (fst (BaseClock.min b)) = true /\ snd (BaseClock.min b) = b
  /\ is_ok (fst (BaseClock.max b)) = true /\ snd (BaseClock.max b) = b
  /\ exists m, BaseClock.mean b = (Ok m, b)
       /\ BaseClock.freq b
          = (Ok (if Qlt_le_dec 0 m then (1 / m)%Q else 0%Q), b).
Proof.
  assert (Hfreq : forall m, BaseClock.mean b = (Ok m, b) ->
            BaseClock.freq b
            = (Ok (if Qlt_le_dec 0 m then (1 / m)%Q else 0%Q), b)).
  { intros m Hm. unfold BaseClock.freq, bind. rewrite Hm.
    destruct (Qlt_le_dec 0 m) as [Hpos | Hle]; [| reflexivity].
    unfold lift. rewrite truediv_ok; [reflexivity |].
    intros E. rewrite E in Hpos. exact (Qlt_irrefl 0 Hpos). }
  split; [| repeat split].
  - intros He.
    assert (Hm : BaseClock.mean b = (Ok 0%Q, b)).
    { unfold BaseClock.mean, len. rewrite He. reflexivity. }
    repeat split.
    + unfold BaseClock.min, len. rewrite He. reflexivity.
    + unfold BaseClock.max, len. rewrite He. reflexivity.
    + exact Hm.
    + rewrite (Hfreq _ Hm). reflexivity.
  - apply min_total.
  - apply max_total.
  - eexists. split; [apply mean_total |]. apply Hfreq, mean_total.
Qed.

Lemma C6_vacuous_statistics_witness :
  let b := BaseClock.mk (Deque.mk 10 []) in
  BaseClock.min b = (Ok 0%Q, b) /\ BaseClock.max b = (Ok 0%Q, b)
  /\ BaseClock.mean b = (Ok 0%Q, b) /\ BaseClock.freq b = (Ok 0%Q, b).
Proof.
  apply (C6_vacuous_statistics (BaseClock.mk (Deque.mk 10 []))). reflexivity.
Defined.

(** ** The measurement bracket *)

Import StopWatch.

Section Bracket.

Implicit Types (h : store) (o : StopWatch.t) (self : addr).

Lemma load_spec h self o : h !! self = Some o -> load self h = (Ok o, h).
Proof. intros H. unfold load. rewrite H. reflexivity. Qed.

Lemma modify_spec h self o f :
  h !! self = Some o -> modify self f h = (Ok tt, <[self := f o]> h).
Proof. intros H. unfold modify. rewrite H. reflexivity. Qed.

Lemma lookup_insert_self h self o o' :
  h !! self = Some o -> <[self := o']> h !! self = Some o'.
Proof. intros H. apply list_lookup_insert_eq. eapply lookup_lt_Some, H. Qed.

Lemma on_base_record h self o x :
  h !! self = Some o ->
  on_base self (BaseClock.record x) h
  = (Ok tt, <[self := set_base (snd (BaseClock.record x (base o))) o]> h).
Proof.
  intros H. unfold on_base, bind. rewrite (load_spec _ _ _ H). simpl.
  rewrite (modify_spec _ _ _ _ H). reflexivity.
Qed.

Lemma enter_spec h self o now :
  h !! self = Some o ->
  __enter__ now self h = (Ok self, <[self := set_start (Some now) o]> h).
Proof.
  intros H. unfold __enter__, bind. rewrite (modify_spec _ _ _ _ H).
  reflexivity.
Qed.

Lemma exit_spec h self o now s :
  h !! self = Some o -> _start o = Some s ->
  __exit__ now self h = (Ok tt, <[self := measured (now - s) o]> h).
Proof.
  intros H Hs. unfold __exit__, bind. rewrite (load_spec _ _ _ H), Hs.
  rewrite (on_base_record _ _ _ _ H).
  erewrite modify_spec by (eapply lookup_insert_self, H).
  rewrite list_insert_insert_eq. reflexivity.
Qed.

Lemma exit_idle h self o now :
  h !! self = Some o -> _start o = None ->
  __exit__ now self h = (Raise TypeError, h).
Proof.
  intros H Hs. unfold __exit__, bind. rewrite (load_spec _ _ _ H), Hs.
  reflexivity.
Qed.

(** A bracket around a body that leaves the node alone. *)
Lemma with_spec {A} h self o te tx (body : addr -> M store A) :
  h !! self = Some o ->
  let h1 := snd (__enter__ te self h) in
  snd (body self h1) !! self = h1 !! self ->
  with_ self te tx body h
  = (fst (body self h1),
     <[self := measured (tx - te) o]> (snd (body self h1))).
Proof.
  intros H h1 Hframe. unfold with_. subst h1.
  rewrite (enter_spec _ _ _ _ H) in *. simpl in *.
  rewrite (lookup_insert_self _ _ _ _ H) in Hframe.
  destruct (body self _) as [[a | e] h2]; simpl in *;
    rewrite (exit_spec _ _ _ tx te Hframe) by reflexivity;
    reflexivity.
Qed.

Lemma bracket_spec h self o te tx :
  h !! self = Some o ->
  with_ self te tx (fun _ => ret tt) h
  = (Ok tt, <[self := measured (tx - te) o]> h).
Proof.
  intros H. rewrite (with_spec h self o) by
    (try assumption; rewrite (enter_spec _ _ _ _ H); reflexivity).
  rewrite (enter_spec _ _ _ _ H). unfold ret. simpl.
  rewrite list_insert_insert_eq. reflexivity.
Qed.

Lemma measured_capacity x o : capacity (measured x o) = capacity o.
Proof. unfold capacity, measured. simpl. apply append_maxlen. Qed.

End Bracket.

(** C8. Entering a node never fails: it stores the reading in [_start],
    so the node is [ACTIVE], whatever [_start] held before. Leaving an
    [ACTIVE] node records the time since the stored reading and clears
    [_start], so the node is [IDLE] again. Hence entering twice and then
    leaving records the time since the second entry. *)
Theorem C8_bracket_state_machine
    (h : store) (self : addr) (o : StopWatch.t) (t1 t2 t3 : Q) :
  h !! self = Some o ->
  (* entry *)
  (exists h1 o1, __enter__ t1 self h = (Ok self, h1) /\ h1 !! self = Some o1
     /\ _start o1 = Some t1 /\ phase_of o1 = ACTIVE /\ samples o1 = samples o
     (* exit *)
     /\ exists h2 o2, __exit__ t3 self h1 = (Ok tt, h2) /\ h2 !! self = Some o2
          /\ _start o2 = None /\ phase_of o2 = IDLE
          /\ BaseClock.intervals (base o2)
             = append (t3 - t1)%Q (BaseClock.intervals (base o)))
  (* entry, entry again, exit *)
  /\ exists h2 o2 h3 o3,
       (e <- __enter__ t1 self ;; __enter__ t2 self)%py h = (Ok self, h2)
       /\ h2 !! self = Some o2 /\ _start o2 = Some t2 /\ phase_of o2 = ACTIVE
       /\ __exit__ t3 self h2 = (Ok tt, h3) /\ h3 !! self = Some o3
       /\ phase_of o3 = IDLE
       /\ BaseClock.intervals (base o3)
          = append (t3 - t2)%Q (BaseClock.intervals (base o)).
Proof.
  intros H.
  pose proof (lookup_insert_self h self o (set_start (Some t1) o) H) as H1.
  split.
  - exists (<[self := set_start (Some t1) o]> h), (set_start (Some t1) o).
    split; [apply enter_spec, H |]. split; [exact H1 |].
    do 3 (split; [reflexivity |]).
    eexists _, _. split; [apply (exit_spec _ _ _ t3 t1 H1); reflexivity |].
    split; [eapply lookup_insert_self, H1 |]. repeat split.
  - pose proof (lookup_insert_self _ self _ (set_start (Some t2)
                  (set_start (Some t1) o)) H1) as H2.
    eexists _, _, _, _. split.
    { unfold bind. rewrite (enter_spec _ _ _ _ H).
      apply (enter_spec _ _ _ _ H1). }
    split; [exact H2 |]. do 2 (split; [reflexivity |]).
    split; [apply (exit_spec _ _ _ t3 t2 H2); reflexivity |].
    split; [eapply lookup_insert_self, H2 |]. repeat split.
Qed.

Lemma C8_bracket_state_machine_witness :
  exists h2 o2 h3 o3,
    (e <- __enter__ 1 0%nat ;; __enter__ 4 0%nat)%py
      [StopWatch.mk (BaseClock.mk (Deque.mk 10 [])) "root" None [] None]
    = (Ok 0%nat, h2)
    /\ h2 !! 0%nat = Some o2 /\ _start o2 = Some 4%Q /\ phase_of o2 = ACTIVE
    /\ __exit__ 9 0%nat h2 = (Ok tt, h3) /\ h3 !! 0%nat = Some o3
    /\ phase_of o3 = IDLE
    /\ BaseClock.intervals (base o3) = append (9 - 4)%Q (Deque.mk 10 []).
Proof.
  refine (proj2 (C8_bracket_state_machine
            [StopWatch.mk (BaseClock.mk (Deque.mk 10 [])) "root" None [] None]
            0%nat
            (StopWatch.mk (BaseClock.mk (Deque.mk 10 [])) "root" None [] None)
            1 4 9 _)).
  reflexivity.
Defined.

(** C10. Leaving a node whose bracket is not open raises [TypeError]: the
    reading minus [None] has no value. Nothing is recorded and the store
    stays as it was. *)
Theorem C10_exit_without_enter
    (h : store) (self : addr) (o : StopWatch.t) (now : Q) :
  h !! self = Some o -> _start o = None ->
  __exit__ now self h = (Raise TypeError, h).
Proof. apply exit_idle. Qed.

Lemma C10_exit_without_enter_witness :
  __exit__ 5 0%nat
    [StopWatch.mk (BaseClock.mk (Deque.mk 10 [])) "root" None [] None]
  = (Raise TypeError,
     [StopWatch.mk (BaseClock.mk (Deque.mk 10 [])) "root" None [] None]).
Proof.
  apply (C10_exit_without_enter _ 0%nat
           (StopWatch.mk (BaseClock.mk (Deque.mk 10 [])) "root" None [] None));
    reflexivity.
Defined.

(** ** The tree of stop watches *)

Section Tree.

Implicit Types (h : store) (o : StopWatch.t) (self : addr)
               (d : list (string * addr)).

Lemma dict_get_elem d k c : dict_get d k = Some c -> (k, c) ∈ d.
Proof.
  induction d as [| [k' v] r IH]; simpl; [discriminate |].
  destruct (String.eqb_spec k' k) as [-> | Hne].
  - intros [= ->]. apply list_elem_of_here.
  - intros H. apply list_elem_of_further, IH, H.
Qed.

Lemma dict_set_fresh d k v :
  dict_get d k = None -> dict_set d k v = d ++ [(k, v)].
Proof.
  induction d as [| [k' v'] r IH]; simpl; [reflexivity |].
  destruct (String.eqb k' k); [discriminate |].
  intros H. rewrite IH by assumption. reflexivity.
Qed.

Lemma dict_get_snoc d k v k' :
  dict_get (d ++ [(k, v)]) k'
  = match dict_get d k' with
    | Some c => Some c
    | None => if String.eqb k k' then Some v else None
    end.
Proof.
  induction d as [| [k0 v0] r IH]; simpl; [reflexivity |].
  destruct (String.eqb k0 k'); [reflexivity | exact IH].
Qed.

Lemma child_cached h self o nm mi c :
  h !! self = Some o -> dict_get (children o) nm = Some c ->
  child self nm mi h = (Ok c, h).
Proof.
  intros H Hc. unfold child, bind. rewrite (load_spec _ _ _ H), Hc.
  reflexivity.
Qed.

Lemma child_new h self o nm mi :
  h !! self = Some o -> dict_get (children o) nm = None ->
  let n := match mi with Some n => n | None => capacity o end in
  0 <= n ->
  child self nm mi h = (Ok (length h), adopt h self o nm n).
Proof.
  intros H Hc n Hn. unfold child, bind. rewrite (load_spec _ _ _ H), Hc.
  unfold __init__, BaseClock.__init__, Deque.new. fold n.
  destruct (Z.ltb_spec n 0); [lia |].
  pose proof (lookup_lt_Some _ _ _ H) as Hlt.
  set (o0 := StopWatch.mk _ nm None [] None).
  erewrite modify_spec by (apply list_lookup_middle; reflexivity).
  rewrite insert_app_r_alt, Nat.sub_diag by lia. simpl.
  erewrite modify_spec by (apply lookup_app_l_Some, H).
  rewrite insert_app_l by assumption.
  simpl. rewrite dict_set_fresh by assumption. reflexivity.
Qed.

Lemma wf_nil : wf [].
Proof. intros a o H. rewrite lookup_nil in H. discriminate. Qed.

(** Changing anything but the links and the name of a node. *)
Lemma wf_update h self o o' :
  wf h -> h !! self = Some o ->
  parent o' = parent o -> children o' = children o -> name o' = name o ->
  0 <= capacity o' ->
  wf (<[self := o']> h).
Proof.
  intros Hwf H Hp Hc Hn Hcap a oa Ha.
  assert (Hproj : forall c, parent <$> <[self := o']> h !! c = parent <$> h !! c
                         /\ name <$> <[self := o']> h !! c = name <$> h !! c).
  { intros c. destruct (decide (self = c)) as [<- | Hne].
    - rewrite (lookup_insert_self _ _ _ _ H), H. simpl. rewrite Hp, Hn. auto.
    - rewrite list_lookup_insert_ne by assumption. auto. }
  destruct (decide (self = a)) as [<- | Hne].
  - rewrite (lookup_insert_self _ _ _ _ H) in Ha. injection Ha as <-.
    destruct (Hwf _ _ H) as (H1 & H2 & H3).
    split; [| split]; [rewrite Hp; exact H1 | | exact Hcap].
    intros k c Hin. rewrite Hc in Hin.
    destruct (Hproj c) as [-> ->]. apply H2, Hin.
  - rewrite list_lookup_insert_ne in Ha by assumption.
    destruct (Hwf _ _ Ha) as (H1 & H2 & H3).
    split; [| split]; [exact H1 | | exact H3].
    intros k c Hin. destruct (Hproj c) as [-> ->]. apply H2, Hin.
Qed.

(** The constructor adds a root. *)
Lemma wf_init h nm n :
  wf h -> 0 <= n ->
  wf (h ++ [StopWatch.mk (BaseClock.mk (Deque.mk n [])) nm None [] None]).
Proof.
  intros Hwf Hn a oa Ha. apply lookup_snoc_Some in Ha as [[Hlt Ha] | [-> <-]].
  - destruct (Hwf _ _ Ha) as (H1 & H2 & H3).
    split; [| split]; [exact H1 | | exact H3].
    intros k c Hin. destruct (H2 k c Hin) as [Hp Hnm].
    destruct (h !! c) as [oc |] eqn:Hc; [| discriminate].
    rewrite (lookup_app_l_Some _ _ _ _ Hc). auto.
  - split; [| split]; simpl; [discriminate | | exact Hn].
    intros k c Hin. apply elem_of_nil in Hin. contradiction.
Qed.

(** [child] adds a leaf below [self]. *)
Lemma wf_adopt h self o nm n :
  wf h -> h !! self = Some o -> 0 <= n ->
  wf (adopt h self o nm n).
Proof.
  intros Hwf H Hn a oa Ha.
  pose proof (lookup_lt_Some _ _ _ H) as Hlt.
  set (o' := set_children (children o ++ [(nm, length h)]) o) in *.
  assert (Hlen : length (<[self := o']> h) = length h) by apply length_insert.
  assert (Hold : forall c oc, h !! c = Some oc ->
            parent <$> adopt h self o nm n !! c = Some (parent oc)
            /\ name <$> adopt h self o nm n !! c = Some (name oc)).
  { intros c oc Hc. unfold adopt. fold o'.
    destruct (decide (self = c)) as [<- | Hne].
    - rewrite (lookup_app_l_Some _ _ _ o')
        by (eapply lookup_insert_self, H).
      rewrite H in Hc. injection Hc as <-. auto.
    - rewrite (lookup_app_l_Some _ _ _ oc)
        by (rewrite list_lookup_insert_ne; assumption).
      auto. }
  assert (Hkeep : forall b ob k c, h !! b = Some ob -> (k, c) ∈ children ob ->
            parent <$> adopt h self o nm n !! c = Some (Some b)
            /\ name <$> adopt h self o nm n !! c = Some k).
  { intros b ob k c Hb Hin.
    destruct (Hwf _ _ Hb) as (_ & H2 & _).
    destruct (H2 k c Hin) as [Hp Hnm].
    destruct (h !! c) as [oc |] eqn:Hc; [| discriminate].
    destruct (Hold c oc Hc) as [-> ->].
    simpl in Hp, Hnm. injection Hp as ->. injection Hnm as ->. auto. }
  unfold adopt in Ha. fold o' in Ha.
  apply lookup_snoc_Some in Ha as [[Ha_lt Ha] | [Ha_eq <-]].
  - destruct (decide (self = a)) as [<- | Hne].
    + rewrite (lookup_insert_self _ _ _ _ H) in Ha. injection Ha as <-.
      destruct (Hwf _ _ H) as (H1 & H2 & H3).
      split; [| split]; [exact H1 | | exact H3].
      intros k c Hin. simpl in Hin. apply elem_of_app in Hin as [Hin | Hin].
      * apply (Hkeep self o k c H Hin).
      * apply list_elem_of_singleton in Hin. injection Hin as -> ->.
        unfold adopt. fold o'.
        rewrite list_lookup_middle by (symmetry; exact Hlen). auto.
    + rewrite list_lookup_insert_ne in Ha by assumption.
      destruct (Hwf _ _ Ha) as (H1 & H2 & H3).
      split; [| split]; [exact H1 | | exact H3].
      intros k c Hin. apply (Hkeep a oa k c Ha Hin).
  - subst a. rewrite Hlen.
    split; [| split]; simpl; [| | exact Hn].
    + intros p [= <-]. exact Hlt.
    + intros k c Hin. apply elem_of_nil in Hin. contradiction.
Qed.

End Tree.

Section Adoption.

Implicit Types (h : store) (o : StopWatch.t) (self : addr).

Lemma adopt_length h self o nm n :
  length (adopt h self o nm n) = S (length h).
Proof. unfold adopt. rewrite length_app, length_insert. simpl. lia. Qed.

Lemma adopt_self h self o nm n :
  h !! self = Some o ->
  adopt h self o nm n !! self
  = Some (set_children (children o ++ [(nm, length h)]) o).
Proof.
  intros H. unfold adopt.
  apply lookup_app_l_Some. eapply lookup_insert_self, H.
Qed.

Lemma adopt_new h self o nm n :
  adopt h self o nm n !! length h = Some (newborn self nm n).
Proof.
  unfold adopt. apply list_lookup_middle. rewrite length_insert. reflexivity.
Qed.

(** Older objects keep their parent and their name. *)
Lemma adopt_old h self o nm n c oc :
  h !! self = Some o -> h !! c = Some oc ->
  parent <$> adopt h self o nm n !! c = Some (parent oc)
  /\ name <$> adopt h self o nm n !! c = Some (name oc).
Proof.
  intros H Hc. destruct (decide (self = c)) as [<- | Hne].
  - rewrite (adopt_self _ _ _ _ _ H). rewrite H in Hc. injection Hc as <-.
    auto.
  - unfold adopt. rewrite (lookup_app_l_Some _ _ _ oc)
      by (rewrite list_lookup_insert_ne; assumption).
    auto.
Qed.

(** What a store in good shape says about a registered child. *)
Lemma wf_child h self o k c :
  wf h -> h !! self = Some o -> dict_get (children o) k = Some c ->
  exists oc, h !! c = Some oc /\ parent oc = Some self /\ name oc = k.
Proof.
  intros Hwf H Hk. destruct (Hwf _ _ H) as (_ & H2 & _).
  destruct (H2 k c (dict_get_elem _ _ _ Hk)) as [Hp Hn].
  destruct (h !! c) as [oc |]; [| discriminate].
  simpl in *. exists oc. split; [reflexivity |]. split; congruence.
Qed.

End Adoption.

(** C4. On a node [self] of a store in good shape, [child] with the name
    [x] returns a child [c1]; asking again for [x], with any capacity,
    returns the same [c1] and changes nothing. Asking for another name
    [y] returns a different object. Both have [self] as parent, and [c1]
    is registered under [x] in the children of [self]. When [x] was not
    registered before, [c1] is a new object whose parent is [self], whose
    name is [x], whose history is empty and whose capacity is the one
    supplied or else the capacity of [self]. The store stays in good
    shape. *)
Theorem C4_child_caching
    (h : store) (self : addr) (o : StopWatch.t) (x y : string)
    (cx cy : option Z) :
  wf h -> h !! self = Some o -> x <> y ->
  (forall n, cx = Some n -> 0 <= n) -> (forall n, cy = Some n -> 0 <= n) ->
  exists c1 h1 c2 h2,
    child self x cx h = (Ok c1, h1)
    /\ (forall cz, child self x cz h1 = (Ok c1, h1))
    /\ child self y cy h1 = (Ok c2, h2)
    /\ c1 <> c2
    /\ parent <$> h2 !! c1 = Some (Some self)
    /\ parent <$> h2 !! c2 = Some (Some self)
    /\ (exists o1, h1 !! self = Some o1 /\ dict_get (children o1) x = Some c1)
    /\ (dict_get (children o) x = None ->
        c1 = length h /\ h !! c1 = None
        /\ h1 !! c1
           = Some (newborn self x
                     (match cx with Some n => n | None => capacity o end)))
    /\ wf h2.
Proof.
  intros Hwf H Hxy Hcx Hcy.
  assert (Hcap : 0 <= capacity o) by (destruct (Hwf _ _ H) as (_ & _ & ?); assumption).
  set (nx := match cx with Some n => n | None => capacity o end).
  set (ny := match cy with Some n => n | None => capacity o end).
  assert (Hnx : 0 <= nx) by (unfold nx; destruct cx; auto).
  assert (Hny : 0 <= ny) by (unfold ny; destruct cy; auto).
  destruct (dict_get (children o) x) as [c1 |] eqn:Hx;
    destruct (dict_get (children o) y) as [c2 |] eqn:Hy.
  - (* both are cached *)
    destruct (wf_child _ _ _ _ _ Hwf H Hx) as (o1 & Hc1 & Hp1 & Hn1).
    destruct (wf_child _ _ _ _ _ Hwf H Hy) as (o2 & Hc2 & Hp2 & Hn2).
    exists c1, h, c2, h.
    split; [apply (child_cached _ _ _ _ _ _ H Hx) |].
    split; [intros cz; apply (child_cached _ _ _ _ _ _ H Hx) |].
    split; [apply (child_cached _ _ _ _ _ _ H Hy) |].
    split; [intros ->; congruence |].
    split; [rewrite Hc1; simpl; congruence |].
    split; [rewrite Hc2; simpl; congruence |].
    split; [exists o; auto |].
    split; [discriminate | exact Hwf].
  - (* x is cached, y is new *)
    destruct (wf_child _ _ _ _ _ Hwf H Hx) as (o1 & Hc1 & Hp1 & Hn1).
    exists c1, h, (length h), (adopt h self o y ny).
    split; [apply (child_cached _ _ _ _ _ _ H Hx) |].
    split; [intros cz; apply (child_cached _ _ _ _ _ _ H Hx) |].
    split; [apply (child_new _ _ _ _ _ H Hy Hny) |].
    split; [apply lookup_lt_Some in Hc1; lia |].
    split; [rewrite (proj1 (adopt_old _ _ _ y ny _ _ H Hc1)); congruence |].
    split; [rewrite adopt_new; reflexivity |].
    split; [exists o; auto |].
    split; [discriminate | apply wf_adopt; assumption].
  - (* x is new, y is cached *)
    destruct (wf_child _ _ _ _ _ Hwf H Hy) as (o2 & Hc2 & Hp2 & Hn2).
    pose proof (adopt_self h self o x nx H) as Hs.
    set (o1 := set_children _ o) in Hs.
    assert (Hx1 : dict_get (children o1) x = Some (length h)).
    { simpl. rewrite dict_get_snoc, Hx, String.eqb_refl. reflexivity. }
    assert (Hy1 : dict_get (children o1) y = Some c2).
    { simpl. rewrite dict_get_snoc, Hy. reflexivity. }
    exists (length h), (adopt h self o x nx), c2, (adopt h self o x nx).
    split; [apply (child_new _ _ _ _ _ H Hx Hnx) |].
    split; [intros cz; apply (child_cached _ _ _ _ _ _ Hs Hx1) |].
    split; [apply (child_cached _ _ _ _ _ _ Hs Hy1) |].
    split; [apply lookup_lt_Some in Hc2; lia |].
    split; [rewrite adopt_new; reflexivity |].
    split; [rewrite (proj1 (adopt_old _ _ _ x nx _ _ H Hc2)); congruence |].
    split; [exists o1; auto |].
    split; [| apply wf_adopt; assumption].
    intros _. split; [reflexivity |].
    split; [apply lookup_ge_None; lia | apply adopt_new].
  - (* both are new *)
    pose proof (adopt_self h self o x nx H) as Hs.
    set (o1 := set_children _ o) in Hs.
    set (h1 := adopt h self o x nx) in *.
    assert (Hx1 : dict_get (children o1) x = Some (length h)).
    { simpl. rewrite dict_get_snoc, Hx, String.eqb_refl. reflexivity. }
    assert (Hy1 : dict_get (children o1) y = None).
    { simpl. rewrite dict_get_snoc, Hy.
      destruct (String.eqb_spec x y); [contradiction | reflexivity]. }
    assert (Hn1 : h1 !! length h = Some (newborn self x nx)) by apply adopt_new.
    assert (Hwf1 : wf h1) by (apply wf_adopt; assumption).
    exists (length h), h1, (length h1), (adopt h1 self o1 y ny).
    split; [apply (child_new _ _ _ _ _ H Hx Hnx) |].
    split; [intros cz; apply (child_cached _ _ _ _ _ _ Hs Hx1) |].
    split; [apply (child_new h1 self o1 y cy Hs Hy1); exact Hny |].
    split; [unfold h1; rewrite adopt_length; lia |].
    split; [rewrite (proj1 (adopt_old _ _ _ y ny _ _ Hs Hn1)); reflexivity |].
    split; [rewrite adopt_new; reflexivity |].
    split; [exists o1; auto |].
    split; [| apply wf_adopt; assumption].
    intros _. split; [reflexivity |].
    split; [apply lookup_ge_None; lia | exact Hn1].
Qed.

Lemma C4_child_caching_witness :
  let root := StopWatch.mk (BaseClock.mk (Deque.mk 7 [])) "root" None [] None in
  exists c1 h1 c2 h2,
    child 0%nat "x" None [root] = (Ok c1, h1)
    /\ (forall cz, child 0%nat "x" cz h1 = (Ok c1, h1))
    /\ child 0%nat "y" (Some 3) h1 = (Ok c2, h2)
    /\ c1 <> c2
    /\ parent <$> h2 !! c1 = Some (Some 0%nat)
    /\ parent <$> h2 !! c2 = Some (Some 0%nat)
    /\ (exists o1, h1 !! 0%nat = Some o1 /\ dict_get (children o1) "x" = Some c1)
    /\ (dict_get (children root) "x" = None ->
        c1 = 1%nat /\ [root] !! c1 = None
        /\ h1 !! c1 = Some (newborn 0%nat "x" 7))
    /\ wf h2.
Proof.
  intros root.
  apply (C4_child_caching [root] 0%nat root "x" "y" None (Some 3)).
  - apply (wf_init [] "root" 7 wf_nil). lia.
  - reflexivity.
  - discriminate.
  - discriminate.
  - intros n [= <-]. lia.
Defined.

(** ** Brackets around any body *)

Section AnyBody.

Implicit Types (h : store) (o : StopWatch.t) (self : addr).

(** The bracket around a body after which [_start] is still set. *)
Lemma with_started {A} h self o te tx (body : addr -> M store A) o2 s :
  h !! self = Some o ->
  let h1 := snd (__enter__ te self h) in
  snd (body self h1) !! self = Some o2 -> _start o2 = Some s ->
  with_ self te tx body h
  = (fst (body self h1), <[self := measured (tx - s) o2]> (snd (body self h1))).
Proof.
  intros H h1 H2 Hs. unfold with_. subst h1.
  rewrite (enter_spec _ _ _ _ H) in *. simpl in *.
  destruct (body self _) as [[a | e] h2]; simpl in *;
    rewrite (exit_spec _ _ _ tx s H2 Hs); reflexivity.
Qed.

(** The bracket around a body that leaves the bracket alone. *)
Lemma with_keeps {A} h self o te tx (body : addr -> M store A) :
  h !! self = Some o -> keeps self body ->
  exists o3,
    snd (with_ self te tx body h) !! self = Some o3
    /\ fst (with_ self te tx body h)
       = fst (body self (snd (__enter__ te self h)))
    /\ base o3 = snd (BaseClock.record (tx - te)%Q (base o))
    /\ _start o3 = None.
Proof.
  intros H Hkeeps.
  pose proof (lookup_insert_self h self o (set_start (Some te) o) H) as H1.
  destruct (Hkeeps _ _ H1) as (o2 & H2 & Hb & Hs).
  assert (Hh1 : snd (__enter__ te self h) = <[self := set_start (Some te) o]> h)
    by (rewrite (enter_spec _ _ _ _ H); reflexivity).
  rewrite <- Hh1 in H2.
  rewrite (with_started h self o te tx body o2 te H H2 Hs).
  exists (measured (tx - te) o2). simpl.
  split; [eapply lookup_insert_self, H2 |].
  split; [reflexivity |]. rewrite Hb. auto.
Qed.

(** [child] is such a body. *)
Lemma child_keeps self nm mi : keeps self (fun r => child r nm mi).
Proof.
  intros h o H.
  destruct (dict_get (children o) nm) as [c |] eqn:Hget.
  { rewrite (child_cached _ _ _ _ _ _ H Hget). exists o. auto. }
  set (n := match mi with Some n => n | None => capacity o end).
  destruct (Z.ltb_spec n 0) as [Hneg | Hpos].
  - exists o. split; [| auto].
    unfold child, bind. rewrite (load_spec _ _ _ H), Hget.
    unfold __init__, BaseClock.__init__, Deque.new. fold n.
    destruct (Z.ltb_spec n 0); [exact H | lia].
  - rewrite (child_new _ _ _ _ _ H Hget Hpos). simpl.
    rewrite (adopt_self _ _ _ _ _ H). eexists. split; [reflexivity |]. auto.
Qed.

Lemma ret_keeps {A} self (a : A) : keeps self (fun _ => ret a).
Proof. intros h o H. exists o. auto. Qed.

Lemma bracket_seq_samples {A} (rs : list (Q * Q * (addr -> M store A))) :
  forall h self o,
    h !! self = Some o ->
    Forall (fun r => keeps self r.2) rs ->
    Z.of_nat (length (samples o) + length rs) <= capacity o ->
    exists o', bracket_seq rs self h !! self = Some o'
      /\ samples o' = samples o ++ map (fun r => (r.1.2 - r.1.1)%Q) rs
      /\ capacity o' = capacity o.
Proof.
  induction rs as [| [[te tx] body] r IH]; intros h self o H Hk Hcap.
  - exists o. simpl. rewrite app_nil_r. auto.
  - inversion Hk as [| ? ? Hbody Hrest]; subst. simpl in Hbody.
    destruct (with_keeps h self o te tx body H Hbody)
      as (o3 & H3 & _ & Hb3 & _).
    assert (Hs3 : samples o3 = samples o ++ [(tx - te)%Q]).
    { unfold samples, capacity in *. rewrite Hb3. simpl. unfold append.
      rewrite length_app. simpl in *.
      destruct (Z.ltb_spec (maxlen (BaseClock.intervals (base o)))
                  (Z.of_nat (length (items (BaseClock.intervals (base o))) + 1)));
        [lia | reflexivity]. }
    assert (Hc3 : capacity o3 = capacity o).
    { unfold capacity. rewrite Hb3. simpl. apply append_maxlen. }
    destruct (IH _ self o3 H3 Hrest) as (o' & Hrun & Hs & Hc).
    { rewrite Hc3, Hs3, length_app. simpl in *. lia. }
    exists o'. split; [exact Hrun |].
    rewrite Hs, Hs3, Hc, Hc3, <- app_assoc. auto.
Qed.

End AnyBody.

(** C2. One [with] statement on a node appends exactly one sample to the
    history of that node, whether its body returns or raises (the
    outcome of the body is passed on).
    - If [_start] still holds a reading [s] when the body ends, the
      sample is the exit reading minus [s], appended to the history the
      body left.
    - If the body leaves the bracket of the node alone (it may create
      children of the node, time other nodes, raise), the sample is the
      exit reading minus the entry reading, appended to the history the
      node had on entry, and the bracket is closed afterwards.
    - [N] such brackets on a new node of capacity at least [N] leave
      exactly [N] samples, one per bracket and in order, each
      non-negative when no exit reading precedes its entry reading. *)
Theorem C2_bracket_accounting :
  (forall (A : Type) (h : store) (self : addr) (o o2 : StopWatch.t)
          (te tx s : Q) (body : addr -> M store A),
     h !! self = Some o ->
     let h1 := snd (__enter__ te self h) in
     snd (body self h1) !! self = Some o2 -> _start o2 = Some s ->
     let out := with_ self te tx body h in
     fst out = fst (body self h1)
     /\ snd out = <[self := measured (tx - s) o2]> (snd (body self h1))
     /\ snd out !! self = Some (measured (tx - s) o2)
     /\ BaseClock.intervals (base (measured (tx - s) o2))
        = append (tx - s)%Q (BaseClock.intervals (base o2)))
  /\
  (forall (A : Type) (h : store) (self : addr) (o : StopWatch.t)
          (te tx : Q) (body : addr -> M store A),
     h !! self = Some o -> keeps self body ->
     exists o3,
       snd (with_ self te tx body h) !! self = Some o3
       /\ fst (with_ self te tx body h)
          = fst (body self (snd (__enter__ te self h)))
       /\ BaseClock.intervals (base o3)
          = append (tx - te)%Q (BaseClock.intervals (base o))
       /\ _start o3 = None)
  /\
  (forall (A : Type) (h : store) (nm : string) (C : Z)
          (rs : list (Q * Q * (addr -> M store A))),
     Z.of_nat (length rs) <= C ->
     Forall (fun r => keeps (length h) r.2) rs ->
     Forall (fun r => (r.1.1 <= r.1.2)%Q) rs ->
     exists h1 o,
       __init__ nm C h = (Ok (length h), h1)
       /\ bracket_seq rs (length h) h1 !! length h = Some o
       /\ samples o = map (fun r => (r.1.2 - r.1.1)%Q) rs
       /\ length (samples o) = length rs
       /\ Forall (fun x => (0 <= x)%Q) (samples o)).
Proof.
  split; [| split].
  - intros A h self o o2 te tx s body H h1 H2 Hs out. subst out.
    rewrite (with_started h self o te tx body o2 s H H2 Hs). simpl.
    split; [reflexivity |]. split; [reflexivity |].
    split; [eapply lookup_insert_self, H2 | reflexivity].
  - intros A h self o te tx body H Hk.
    destruct (with_keeps h self o te tx body H Hk) as (o3 & H3 & Hf & Hb & Hs).
    exists o3. rewrite Hb. auto.
  - intros A h nm C rs Hlen Hk Hmono.
    pose (o0 := StopWatch.mk (BaseClock.mk (Deque.mk C [])) nm None [] None).
    assert (H0 : (h ++ [o0]) !! length h = Some o0)
      by (apply list_lookup_middle; reflexivity).
    destruct (bracket_seq_samples rs (h ++ [o0]) (length h) o0 H0 Hk)
      as (o & Hrun & Hs & _).
    { unfold samples, capacity, o0. simpl. lia. }
    exists (h ++ [o0]), o. split.
    { unfold __init__, BaseClock.__init__, Deque.new.
      destruct (Z.ltb_spec C 0); [lia | reflexivity]. }
    split; [exact Hrun |]. simpl in Hs. rewrite Hs.
    split; [reflexivity |]. split; [apply length_map |].
    apply Forall_map. eapply Forall_impl; [exact Hmono |].
    intros [[te tx] body] Hle. simpl in *.
    unfold Qminus. rewrite <- (Qplus_opp_r te).
    apply Qplus_le_l. exact Hle.
Qed.

Lemma C2_bracket_accounting_witness :
  let root := StopWatch.mk (BaseClock.mk (Deque.mk 10 [])) "root" None [] None in
  let make := fun r : addr => child r "task1" None in
  let fail := fun r : addr => child r "x" (Some (-1)) in
  let rs := [(1, 2, make); (2, 5, fail); (7, 7, fun _ => ret 0%nat)]%Q in
  (* a body that creates a child of the node *)
  (let o2 := set_children [("task1", 1%nat)] (set_start (Some 1%Q) root) in
   let h1 := snd (__enter__ 1 0%nat [root]) in
   let out := with_ 0%nat 1 4 make [root] in
   fst out = fst (make 0%nat h1)
   /\ snd out = <[0%nat := measured (4 - 1) o2]> (snd (make 0%nat h1))
   /\ snd out !! 0%nat = Some (measured (4 - 1) o2)
   /\ BaseClock.intervals (base (measured (4 - 1) o2))
      = append (4 - 1)%Q (BaseClock.intervals (base o2)))
  (* a body that raises *)
  /\ (exists o3,
        snd (with_ 0%nat 1 4 fail [root]) !! 0%nat = Some o3
        /\ fst (with_ 0%nat 1 4 fail [root])
           = fst (fail 0%nat (snd (__enter__ 1 0%nat [root])))
        /\ BaseClock.intervals (base o3)
           = append (4 - 1)%Q (BaseClock.intervals (base root))
        /\ _start o3 = None)
  (* three brackets on a new node *)
  /\ (exists h1 o,
        __init__ "root" 3 [] = (Ok 0%nat, h1)
        /\ bracket_seq rs 0%nat h1 !! 0%nat = Some o
        /\ samples o = map (fun r => (r.1.2 - r.1.1)%Q) rs
        /\ length (samples o) = 3%nat
        /\ Forall (fun x => (0 <= x)%Q) (samples o)).
Proof.
  intros root make fail rs.
  destruct C2_bracket_accounting as (Hone & Hkeep & Hmany).
  split; [| split].
  - intros o2.
    apply (Hone nat [root] 0%nat root o2 1%Q 4%Q 1%Q make); reflexivity.
  - apply (Hkeep nat [root] 0%nat root 1%Q 4%Q fail); [reflexivity |].
    apply child_keeps.
  - apply (Hmany nat [] "root" 3 rs).
    + simpl. lia.
    + repeat constructor; simpl;
        [apply child_keeps | apply child_keeps | apply ret_keeps].
    + repeat constructor; simpl; unfold Qle; simpl; lia.
Defined.

(** ** Ancestors *)

Section Ancestry.

Implicit Types (h : store) (o : StopWatch.t) (self : addr).

(** In a store in good shape the walk up the parents ends: every step
    reaches an older object. *)
Lemma parents_from_chain h :
  wf h ->
  forall fuel self o,
    h !! self = Some o -> (self < fuel)%nat ->
    exists ps, parents_from fuel h self = Some ps /\ chain h self ps.
Proof.
  intros Hwf. induction fuel as [| fuel IH]; intros self o H Hlt; [lia |].
  simpl. rewrite H.
  destruct (parent o) as [p |] eqn:Hp.
  - destruct (Hwf _ _ H) as (H1 & _ & _). specialize (H1 p Hp).
    pose proof (lookup_lt_Some _ _ _ H) as Hself.
    destruct (lookup_lt_is_Some_2 h p ltac:(lia)) as [op Hop].
    destruct (IH p op Hop ltac:(lia)) as (ps & Hps & Hch).
    exists (p :: ps). rewrite Hps. split; [reflexivity |].
    eapply chain_step; eassumption.
  - exists []. split; [reflexivity |]. eapply chain_root; eassumption.
Qed.

End Ancestry.

(** C9. In a store in good shape [parents] returns, for every node, the
    finite list of its ancestors: the parent first, then the parent of
    the parent, up to the root; the list is empty for a root. [level] is
    the length of that list and [full_name] joins with dots the names
    from the root down to the node. For the chain root -> a -> b the level
    of b is 2 and its full name is root.a.b. *)
Theorem C9_ancestry (h : store) (self : addr) (o : StopWatch.t) :
  wf h -> h !! self = Some o ->
  (exists ps,
     parents h self = Some ps
     /\ chain h self ps
     /\ (parent o = None -> ps = [])
     /\ (forall p, parent o = Some p -> exists ps', ps = p :: ps')
     /\ level h self = Some (length ps)
     /\ full_name h self
        = Some (join "." ((name_of h <$> reverse ps) ++ [name o])))
  /\ (let h3 := snd (family []) in
      fst (family []) = Ok (0, 1, 2)%nat
      /\ parents h3 2%nat = Some [1; 0]%nat
      /\ level h3 2%nat = Some 2%nat
      /\ full_name h3 2%nat = Some "root.a.b").
Proof.
  intros Hwf H. split; [| repeat split].
  destruct (parents_from_chain h Hwf (length h) self o H
              (lookup_lt_Some _ _ _ H)) as (ps & Hps & Hch).
  exists ps. unfold level, full_name, parents. rewrite Hps. simpl.
  split; [reflexivity |]. split; [exact Hch |].
  split; [| split; [| split; [reflexivity |]]].
  - intros Hroot. inversion Hch; subst; [reflexivity | congruence].
  - intros p Hp. inversion Hch; subst; [congruence |].
    eexists. f_equal. congruence.
  - unfold name_of at 1. rewrite H.
    rewrite reverse_cons, fmap_reverse. reflexivity.
Qed.

Lemma C9_ancestry_witness :
  let h3 := snd (family []) in
  exists ps,
    parents h3 2%nat = Some ps
    /\ chain h3 2%nat ps
    /\ (Some 1%nat = None -> ps = [])
    /\ (forall p, Some 1%nat = Some p -> exists ps', ps = p :: ps')
    /\ level h3 2%nat = Some (length ps)
    /\ full_name h3 2%nat
       = Some (join "." ((name_of h3 <$> reverse ps) ++ ["b"])).
Proof.
  intros h3.
  refine (proj1 (C9_ancestry h3 2%nat (newborn 1%nat "b" 10) _ _)).
  - pose (root := StopWatch.mk (BaseClock.mk (Deque.mk 10 []))
                    "root" None [] None).
    change h3 with (adopt (adopt [root] 0%nat root "a" 10)
                      1%nat (newborn 0%nat "a" 10) "b" 10).
    apply wf_adopt; [apply wf_adopt | reflexivity | lia];
      [apply (wf_init [] "root" 10 wf_nil); lia | reflexivity | lia].
  - reflexivity.
Defined.

(** ** Rendering *)

Section Text.








(** The properties of the base class: nothing for an empty history,
    else the listed intervals and the three statistics. *)
Lemma base_repr_props (b : BaseClock.t) :
  exists mn me mx,
    BaseClock.min b = (Ok mn, b) /\ BaseClock.mean b = (Ok me, b)
    /\ BaseClock.max b = (Ok mx, b)
    /\ BaseClock._repr_props b
       = (Ok (match items (BaseClock.intervals b) with
              | [] => []
              | _ :: _ =>
                  [ "intervals=[" +:+ join ", " (BaseClock.iv_list b) +:+ "]";
                    "min=" +:+ format_4f mn;
                    "mean=" +:+ format_4f me;
                    "max=" +:+ format_4f mx ]
              end), b).
Proof.
  assert (Hmn : exists mn, BaseClock.min b = (Ok mn, b)).
  { pose proof (min_total b) as H. unfold BaseClock.min in *. simpl in H.
    destruct (if 0 <? _ then _ else _); [eauto | discriminate]. }
  assert (Hmx : exists mx, BaseClock.max b = (Ok mx, b)).
  { pose proof (max_total b) as H. unfold BaseClock.max in *. simpl in H.
    destruct (if 0 <? _ then _ else _); [eauto | discriminate]. }
  destruct Hmn as [mn Hmn], Hmx as [mx Hmx].
  pose proof (mean_total b) as Hme.
  set (me := if 0 <? _ then _ else _) in Hme. clearbody me.
  exists mn, me, mx. do 3 (split; [assumption |]).
  unfold BaseClock._repr_props, len.
  destruct (items (BaseClock.intervals b)) as [| x r] eqn:Hi;
    [reflexivity |].
  cbn [length]. rewrite Nat2Z.inj_succ.
  destruct (Z.ltb_spec 0 (Z.succ (Z.of_nat (length r)))); [| lia].
  unfold bind. rewrite Hmn, Hme, Hmx. reflexivity.
Qed.

End Text.

Section Render.

Implicit Types (h : store) (o : StopWatch.t) (self : addr).

Lemma set_base_id o : set_base (base o) o = o.
Proof. destruct o; reflexivity. Qed.

(** An inherited method that leaves the base alone leaves the store
    alone. *)
Lemma on_base_pure {A} h self o (m : M BaseClock.t A) (r : result A) :
  h !! self = Some o -> m (base o) = (r, base o) ->
  on_base self m h = (r, h).
Proof.
  intros H Hm. unfold on_base, bind. rewrite (load_spec _ _ _ H), Hm.
  rewrite (modify_spec _ _ _ _ H), set_base_id.
  rewrite list_insert_id by assumption. reflexivity.
Qed.

Lemma sw_repr_props h self o bprops :
  h !! self = Some o ->
  BaseClock._repr_props (base o) = (Ok bprops, base o) ->
  _repr_props self h = (Ok (("name=" +:+ name o) :: bprops), h).
Proof.
  intros H Hb. unfold _repr_props, bind.
  rewrite (load_spec _ _ _ H), (on_base_pure _ _ _ _ _ H Hb). reflexivity.
Qed.

Lemma repr_all_ok (f : addr -> option (result string)) (cs : list addr) :
  (forall c, c ∈ cs -> exists s, f c = Some (Ok s)) ->
  exists rs, repr_all f cs = Some (Ok rs) /\ length rs = length cs.
Proof.
  induction cs as [| c r IH]; intros Hall; simpl.
  - exists []. auto.
  - destruct (Hall c (list_elem_of_here _ _)) as [s ->].
    destruct IH as (rs & -> & Hlen).
    { intros c' Hc'. apply Hall, list_elem_of_further, Hc'. }
    exists (s :: rs). simpl. auto.
Qed.

(** A registered child is younger than its parent and is in the
    store. *)
Lemma wf_child_younger h self o c :
  wf h -> h !! self = Some o -> c ∈ (snd <$> children o) ->
  exists oc, h !! c = Some oc /\ (self < c)%nat.
Proof.
  intros Hwf H Hin. apply list_elem_of_fmap in Hin as ([k c'] & -> & Hin).
  destruct (Hwf _ _ H) as (_ & H2 & _).
  destruct (H2 k c' Hin) as [Hp _]. simpl.
  destruct (h !! c') as [oc |] eqn:Hc; [| discriminate].
  exists oc. split; [reflexivity |].
  destruct (Hwf _ _ Hc) as (H1 & _ & _). apply H1.
  simpl in Hp. congruence.
Qed.

(** Rendering returns: the recursion goes to younger objects only. *)
Lemma repr_from_ok h :
  wf h ->
  forall fuel self o,
    h !! self = Some o -> (length h - self <= fuel)%nat ->
    exists lvl bprops kids,
      level h self = Some lvl
      /\ BaseClock._repr_props (base o) = (Ok bprops, base o)
      /\ repr_from fuel h self
         = Some (Ok (render_node lvl
                       (("name=" +:+ name o) :: bprops ++ kids)))
      /\ (children o = [] -> kids = [])
      /\ (children o <> [] ->
          exists rs, length rs = length (children o)
                     /\ kids = [children_prop lvl rs]).
Proof.
  intros Hwf. induction fuel as [| fuel IH]; intros self o H Hfuel.
  { apply lookup_lt_Some in H. lia. }
  destruct (parents_from_chain h Hwf (length h) self o H
              (lookup_lt_Some _ _ _ H)) as (ps & Hps & _).
  destruct (base_repr_props (base o)) as (mn & me & mx & _ & _ & _ & Hb).
  set (bprops := match items _ with [] => [] | _ :: _ => _ end) in Hb.
  assert (Hlvl : level h self = Some (length ps)).
  { unfold level, parents. rewrite Hps. reflexivity. }
  cbn [repr_from]. rewrite Hlvl, H, (sw_repr_props _ _ _ _ H Hb).
  cbn [fst].
  destruct (children o) as [| kc kr] eqn:Hch.
  - exists (length ps), bprops, []. rewrite app_nil_r.
    repeat split; try assumption; congruence.
  - destruct (repr_all_ok (repr_from fuel h) (snd <$> (kc :: kr)))
      as (rs & Hrs & Hlen).
    { intros c Hc. rewrite <- Hch in Hc.
      destruct (wf_child_younger _ _ _ _ Hwf H Hc) as (oc & Hoc & Hlt).
      pose proof (lookup_lt_Some _ _ _ Hoc).
      destruct (IH c oc Hoc ltac:(lia)) as (l & b & k & _ & _ & Hr & _).
      eauto. }
    rewrite Hrs.
    exists (length ps), bprops, [children_prop (length ps) rs].
    repeat split; try assumption; [congruence |].
    intros _. exists rs. rewrite Hlen, length_fmap. auto.
Qed.

End Render.

Section Levels.

Implicit Types (h : store) (o : StopWatch.t) (self : addr).


End Levels.



(** * Further properties *)

(** ** Statistics of a history *)

Section Extremes.

Lemma fold_min_spec (r : list Q) : forall x : Q,
  let m := fold_left (fun m y => if Qlt_le_dec y m then y else m) r x in
  m ∈ x :: r /\ Forall (fun y => (m <= y)%Q) (x :: r).
Proof.
  induction r as [| y r IH]; intros x; simpl.
  - split; [apply list_elem_of_here |]. repeat constructor. apply Qle_refl.
  - destruct (Qlt_le_dec y x) as [Hlt | Hle].
    + destruct (IH y) as [Hin Hall]. split.
      * apply list_elem_of_further, Hin.
      * inversion Hall as [| ? ? Hy Hr]; subst.
        constructor; [| constructor; assumption].
        eapply Qle_trans; [exact Hy | apply Qlt_le_weak, Hlt].
    + destruct (IH x) as [Hin Hall]. split.
      * apply elem_of_cons in Hin as [-> | Hin];
          [apply list_elem_of_here | do 2 apply list_elem_of_further; exact Hin].
      * inversion Hall as [| ? ? Hx Hr]; subst.
        constructor; [assumption |]. constructor; [| assumption].
        eapply Qle_trans; eassumption.
Qed.

Lemma fold_max_spec (r : list Q) : forall x : Q,
  let m := fold_left (fun m y => if Qlt_le_dec m y then y else m) r x in
  m ∈ x :: r /\ Forall (fun y => (y <= m)%Q) (x :: r).
Proof.
  induction r as [| y r IH]; intros x; simpl.
  - split; [apply list_elem_of_here |]. repeat constructor. apply Qle_refl.
  - destruct (Qlt_le_dec x y) as [Hlt | Hle].
    + destruct (IH y) as [Hin Hall]. split.
      * apply list_elem_of_further, Hin.
      * inversion Hall as [| ? ? Hy Hr]; subst.
        constructor; [| constructor; assumption].
        eapply Qle_trans; [apply Qlt_le_weak, Hlt | exact Hy].
    + destruct (IH x) as [Hin Hall]. split.
      * apply elem_of_cons in Hin as [-> | Hin];
          [apply list_elem_of_here | do 2 apply list_elem_of_further; exact Hin].
      * inversion Hall as [| ? ? Hx Hr]; subst.
        constructor; [assumption |]. constructor; [| assumption].
        eapply Qle_trans; eassumption.
Qed.

End Extremes.

(** X1. On a history with samples [min] returns one of the stored
    samples, and no stored sample is below it. *)
Theorem X1_min_is_least (b : BaseClock.t) :
  items (BaseClock.intervals b) <> [] ->
  exists m, BaseClock.min b = (Ok m, b)
    /\ m ∈ items (BaseClock.intervals b)
    /\ Forall (fun y => (m <= y)%Q) (items (BaseClock.intervals b)).
Proof.
  intros Hne. unfold BaseClock.min, len.
  destruct (items (BaseClock.intervals b)) as [| x r]; [contradiction |].
  cbn [length]. rewrite Nat2Z.inj_succ.
  destruct (Z.ltb_spec 0 (Z.succ (Z.of_nat (length r)))); [| lia].
  eexists. split; [reflexivity |]. apply fold_min_spec.
Qed.

Lemma X1_min_is_least_witness :
  let b := BaseClock.mk (Deque.mk 5 [3; 1; 2]%Q) in
  exists m, BaseClock.min b = (Ok m, b) /\ m ∈ [3; 1; 2]%Q
    /\ Forall (fun y => (m <= y)%Q) [3; 1; 2]%Q.
Proof.
  apply (X1_min_is_least (BaseClock.mk (Deque.mk 5 [3; 1; 2]%Q))).
  discriminate.
Defined.

(** X2. On a history with samples [max] returns one of the stored
    samples, and no stored sample is above it. *)
Theorem X2_max_is_greatest (b : BaseClock.t) :
  items (BaseClock.intervals b) <> [] ->
  exists m, BaseClock.max b = (Ok m, b)
    /\ m ∈ items (BaseClock.intervals b)
    /\ Forall (fun y => (y <= m)%Q) (items (BaseClock.intervals b)).
Proof.
  intros Hne. unfold BaseClock.max, len.
  destruct (items (BaseClock.intervals b)) as [| x r]; [contradiction |].
  cbn [length]. rewrite Nat2Z.inj_succ.
  destruct (Z.ltb_spec 0 (Z.succ (Z.of_nat (length r)))); [| lia].
  eexists. split; [reflexivity |]. apply fold_max_spec.
Qed.

Lemma X2_max_is_greatest_witness :
  let b := BaseClock.mk (Deque.mk 5 [3; 1; 2]%Q) in
  exists m, BaseClock.max b = (Ok m, b) /\ m ∈ [3; 1; 2]%Q
    /\ Forall (fun y => (y <= m)%Q) [3; 1; 2]%Q.
Proof.
  apply (X2_max_is_greatest (BaseClock.mk (Deque.mk 5 [3; 1; 2]%Q))).
  discriminate.
Defined.

(** ** Samples of a ticker *)

Section TickerSamples.

(** What a new ticker holds after its ticks. *)
Lemma ticks_samples (C : Z) (ts : list Q) :
  0 <= C ->
  Ticker.samples
    (Ticker.ticks ts (Ticker.mk (BaseClock.mk (Deque.mk C [])) None))
  = last_n (Z.to_nat C) (Ticker.deltas ts).
Proof.
  intros HC. destruct ts as [| t1 r].
  - reflexivity.
  - change (Ticker.ticks (t1 :: r) (Ticker.mk (BaseClock.mk (Deque.mk C [])) None))
      with (Ticker.ticks r (Ticker.mk (BaseClock.mk (Deque.mk C [])) (Some t1))).
    unfold Ticker.samples. rewrite ticks_armed.
    apply (records_newest C (Ticker.deltas (t1 :: r)) HC).
Qed.

Lemma deltas_nonneg (ts : list Q) :
  Sorted Qle ts -> Forall (fun x => (0 <= x)%Q) (Ticker.deltas ts).
Proof.
  induction 1 as [| a r Hs IH Hhd]; [constructor |].
  destruct r as [| b r]; [constructor |].
  cbn [Ticker.deltas]. constructor; [| exact IH].
  inversion Hhd; subst. lra.
Qed.

End TickerSamples.

(** X5. With a clock that never goes back a ticker holds non-negative
    samples only, whatever its capacity and however many ticks it got. *)
Theorem X5_ticker_samples_nonneg (C : Z) (ts : list Q) :
  0 <= C -> Sorted Qle ts ->
  exists t0, Ticker.__init__ C = Ok t0
    /\ Forall (fun x => (0 <= x)%Q) (Ticker.samples (Ticker.ticks ts t0)).
Proof.
  intros HC Hs.
  exists (Ticker.mk (BaseClock.mk (Deque.mk C [])) None). split.
  { unfold Ticker.__init__, BaseClock.__init__, Deque.new.
    destruct (Z.ltb_spec C 0); [lia | reflexivity]. }
  rewrite ticks_samples by assumption.
  unfold last_n. apply Forall_drop, deltas_nonneg, Hs.
Qed.

Lemma X5_ticker_samples_nonneg_witness :
  exists t0, Ticker.__init__ 2 = Ok t0
    /\ Forall (fun x => (0 <= x)%Q)
         (Ticker.samples (Ticker.ticks [1; 3; 3; 10]%Q t0)).
Proof.
  apply (X5_ticker_samples_nonneg 2 [1; 3; 3; 10]%Q); [lia |].
  repeat constructor; unfold Qle; simpl; lia.
Defined.

(** ** Brackets *)

Section BracketsAtLarge.

Implicit Types (h : store) (o : StopWatch.t) (self : addr).

(** Any number of brackets: the history receives one duration per
    bracket, the rest of the node stays. *)
Lemma brackets_records rs : forall h self o,
  h !! self = Some o ->
  exists o', brackets rs self h = (Ok tt, <[self := o']> h)
    /\ base o'
       = BaseClock.records (map (fun r => (snd r - fst r)%Q) rs) (base o)
    /\ name o' = name o /\ parent o' = parent o
    /\ children o' = children o
    /\ _start o' = match rs with [] => _start o | _ :: _ => None end.
Proof.
  induction rs as [| [te tx] r IH]; intros h self o H.
  - exists o. simpl. rewrite list_insert_id by assumption. repeat split.
  - cbn [brackets]. unfold bind. rewrite (bracket_spec _ _ _ _ _ H).
    destruct (IH (<[self := measured (tx - te) o]> h) self
                (measured (tx - te) o)) as (o' & Hrun & Hb & Hn & Hp & Hc & Hs).
    { eapply lookup_insert_self, H. }
    exists o'. rewrite Hrun, list_insert_insert_eq.
    split; [reflexivity |]. split; [rewrite Hb; reflexivity |].
    do 3 (split; [assumption |]).
    rewrite Hs. destruct r; reflexivity.
Qed.

End BracketsAtLarge.

(** X7. Any number of brackets on a new node of capacity [C] end without
    an exception and leave the durations of the last [C] brackets, oldest
    first; the bracket is closed at the end. *)
Theorem X7_brackets_keep_newest
    (h : store) (nm : string) (C : Z) (rs : list (Q * Q)) :
  0 <= C ->
  exists h1 o,
    __init__ nm C h = (Ok (length h), h1)
    /\ fst (brackets rs (length h) h1) = Ok tt
    /\ snd (brackets rs (length h) h1) !! length h = Some o
    /\ samples o
       = last_n (Z.to_nat C) (map (fun r => (snd r - fst r)%Q) rs)
    /\ _start o = None /\ capacity o = C.
Proof.
  intros HC.
  pose (o0 := StopWatch.mk (BaseClock.mk (Deque.mk C [])) nm None [] None).
  assert (H0 : (h ++ [o0]) !! length h = Some o0)
    by (apply list_lookup_middle; reflexivity).
  destruct (brackets_records rs (h ++ [o0]) (length h) o0 H0)
    as (o & Hrun & Hb & _ & _ & _ & Hs).
  exists (h ++ [o0]), o. split.
  { unfold __init__, BaseClock.__init__, Deque.new.
    destruct (Z.ltb_spec C 0); [lia | reflexivity]. }
  rewrite Hrun. split; [reflexivity |].
  split; [eapply lookup_insert_self, H0 |].
  destruct (records_newest C (map (fun r => (snd r - fst r)%Q) rs) HC)
    as [Hm Hi].
  unfold samples, capacity. rewrite Hb. simpl in *.
  split; [exact Hi |]. split; [| exact Hm].
  rewrite Hs. destruct rs; reflexivity.
Qed.

Lemma X7_brackets_keep_newest_witness :
  exists h1 o,
    __init__ "root" 2 [] = (Ok 0%nat, h1)
    /\ fst (brackets [(1, 2); (2, 5); (7, 8)]%Q 0%nat h1) = Ok tt
    /\ snd (brackets [(1, 2); (2, 5); (7, 8)]%Q 0%nat h1) !! 0%nat = Some o
    /\ samples o
       = last_n (Z.to_nat 2)
           (map (fun r => (snd r - fst r)%Q) [(1, 2); (2, 5); (7, 8)]%Q)
    /\ _start o = None /\ capacity o = 2.
Proof.
  apply (X7_brackets_keep_newest [] "root" 2 [(1, 2); (2, 5); (7, 8)]%Q). lia.
Defined.

(** X8. A bracket opened on a node inside an open bracket of the same
    node: the inner bracket records its duration and clears [_start], so
    the exit of the outer bracket raises [TypeError] and the outer
    duration is lost. *)
Theorem X8_nested_bracket_on_same_node
    (h : store) (self : addr) (o : StopWatch.t) (t1 t2 t3 t4 : Q) :
  h !! self = Some o ->
  with_ self t1 t4 (fun r => with_ r t2 t3 (fun _ => ret tt)) h
  = (Raise TypeError, <[self := measured (t3 - t2) o]> h).
Proof.
  intros H. unfold with_ at 1. rewrite (enter_spec _ _ _ _ H).
  pose proof (lookup_insert_self h self o (set_start (Some t1) o) H) as H1.
  rewrite (bracket_spec _ _ _ t2 t3 H1), list_insert_insert_eq.
  pose proof (lookup_insert_self h self o
                (measured (t3 - t2) (set_start (Some t1) o)) H) as H2.
  rewrite (exit_idle _ _ _ t4 H2) by reflexivity.
  reflexivity.
Qed.

Lemma X8_nested_bracket_on_same_node_witness :
  let root := StopWatch.mk (BaseClock.mk (Deque.mk 10 [])) "root" None [] None in
  with_ 0%nat 1 4 (fun r => with_ r 2 3 (fun _ => ret tt)) [root]
  = (Raise TypeError, <[0%nat := measured (3 - 2) root]> [root]).
Proof.
  intros root.
  apply (X8_nested_bracket_on_same_node [root] 0%nat root 1 2 3 4).
  reflexivity.
Defined.

(** ** Frames of the bracket and of [child] *)

(** X9. Entering and leaving a node touch that node only, and of it
    only [_start] and the history: every other object of the store, and
    the name, the parent, the children and the capacity of the node stay
    as they are, and the store stays in good shape. *)
Theorem X9_bracket_frame
    (h : store) (self : addr) (o : StopWatch.t) (t1 t2 : Q) :
  wf h -> h !! self = Some o ->
  exists h1 h2 o2,
    __enter__ t1 self h = (Ok self, h1)
    /\ __exit__ t2 self h1 = (Ok tt, h2)
    /\ wf h1 /\ wf h2
    /\ length h2 = length h
    /\ (forall a, a <> self -> h1 !! a = h !! a /\ h2 !! a = h !! a)
    /\ h2 !! self = Some o2
    /\ name o2 = name o /\ parent o2 = parent o
    /\ children o2 = children o /\ capacity o2 = capacity o.
Proof.
  intros Hwf H.
  assert (Hcap : 0 <= capacity o)
    by (destruct (Hwf _ _ H) as (_ & _ & ?); assumption).
  pose proof (lookup_insert_self h self o (set_start (Some t1) o) H) as H1.
  exists (<[self := set_start (Some t1) o]> h),
         (<[self := measured (t2 - t1) o]> h), (measured (t2 - t1) o).
  split; [apply enter_spec, H |].
  split.
  { rewrite (exit_spec _ _ _ t2 t1 H1) by reflexivity.
    rewrite list_insert_insert_eq. reflexivity. }
  split; [apply (wf_update h self o); auto |].
  split.
  { apply (wf_update h self o); auto. rewrite measured_capacity. exact Hcap. }
  split; [apply length_insert |].
  split.
  { intros a Ha. split; apply list_lookup_insert_ne; congruence. }
  split; [eapply lookup_insert_self, H |].
  do 3 (split; [reflexivity |]). apply measured_capacity.
Qed.

Lemma X9_bracket_frame_witness :
  let h := snd (family []) in
  exists h1 h2 o2,
    __enter__ 1 1%nat h = (Ok 1%nat, h1)
    /\ __exit__ 3 1%nat h1 = (Ok tt, h2)
    /\ wf h1 /\ wf h2
    /\ length h2 = length h
    /\ (forall a, a <> 1%nat -> h1 !! a = h !! a /\ h2 !! a = h !! a)
    /\ h2 !! 1%nat = Some o2
    /\ name o2 = "a" /\ parent o2 = Some 0%nat
    /\ children o2 = [("b", 2%nat)] /\ capacity o2 = 10.
Proof.
  intros h.
  pose (root := StopWatch.mk (BaseClock.mk (Deque.mk 10 []))
                  "root" None [] None).
  refine (X9_bracket_frame h 1%nat
            (set_children [("b", 2%nat)] (newborn 0%nat "a" 10)) 1 3 _ _).
  - change h with (adopt (adopt [root] 0%nat root "a" 10)
                     1%nat (newborn 0%nat "a" 10) "b" 10).
    apply wf_adopt; [apply wf_adopt | reflexivity | lia];
      [apply (wf_init [] "root" 10 wf_nil); lia | reflexivity | lia].
  - reflexivity.
Defined.

(** X10. [child] looks at a supplied capacity only when it has to
    create the child: for a new name a negative capacity (one that fits
    a C [ssize_t]) raises [ValueError] and leaves the store as it was,
    nothing being registered; for a name that is registered the capacity
    is ignored, whatever it is. *)
Theorem X10_child_capacity_check
    (h : store) (self : addr) (o : StopWatch.t) (nm : string) (n : Z) :
  h !! self = Some o ->
  (dict_get (children o) nm = None -> PY_SSIZE_T_MIN <= n < 0 ->
     child self nm (Some n) h = (Raise ValueError, h))
  /\ (forall c, dict_get (children o) nm = Some c ->
        child self nm (Some n) h = (Ok c, h)).
Proof.
  intros H. split.
  - intros Hnew [_ Hn]. unfold child, bind. rewrite (load_spec _ _ _ H), Hnew.
    unfold __init__, BaseClock.__init__, Deque.new.
    destruct (Z.ltb_spec n 0); [reflexivity | lia].
  - intros c Hc. apply (child_cached _ _ _ _ _ _ H Hc).
Qed.

Lemma X10_child_capacity_check_witness :
  let h := snd (family []) in
  child 0%nat "z" (Some (-1)) h = (Raise ValueError, h)
  /\ child 0%nat "a" (Some (-1)) h = (Ok 1%nat, h).
Proof.
  intros h.
  destruct (X10_child_capacity_check h 0%nat
              (set_children [("a", 1%nat)]
                 (StopWatch.mk (BaseClock.mk (Deque.mk 10 []))
                    "root" None [] None))
              "z" (-1) eq_refl) as [Hz _].
  destruct (X10_child_capacity_check h 0%nat
              (set_children [("a", 1%nat)]
                 (StopWatch.mk (BaseClock.mk (Deque.mk 10 []))
                    "root" None [] None))
              "a" (-1) eq_refl) as [_ Ha].
  split; [| apply Ha; reflexivity].
  apply Hz; [reflexivity |]. unfold PY_SSIZE_T_MIN. lia.
Defined.

(** X11. Creating a child adds one object to the store and changes
    nothing else but the children of the calling node: all other objects
    stay as they are, the calling node keeps its history, its open
    bracket, its name and its parent, and its children keep their order,
    the new child coming last. *)
Theorem X11_child_creation_frame
    (h : store) (self : addr) (o : StopWatch.t) (nm : string)
    (mi : option Z) :
  h !! self = Some o -> dict_get (children o) nm = None ->
  0 <= match mi with Some n => n | None => capacity o end ->
  exists h1 o1,
    child self nm mi h = (Ok (length h), h1)
    /\ length h1 = S (length h)
    /\ (forall a oa, a <> self -> h !! a = Some oa -> h1 !! a = Some oa)
    /\ h1 !! self = Some o1
    /\ children o1 = children o ++ [(nm, length h)]
    /\ base o1 = base o /\ _start o1 = _start o
    /\ name o1 = name o /\ parent o1 = parent o.
Proof.
  intros H Hnew Hn.
  exists (adopt h self o nm (match mi with Some n => n | None => capacity o end)),
         (set_children (children o ++ [(nm, length h)]) o).
  split; [apply (child_new _ _ _ _ _ H Hnew Hn) |].
  split; [apply adopt_length |].
  split.
  { intros a oa Ha Hoa. unfold adopt.
    apply lookup_app_l_Some. rewrite list_lookup_insert_ne by congruence.
    exact Hoa. }
  split; [apply adopt_self, H |]. repeat split.
Qed.

Lemma X11_child_creation_frame_witness :
  let h := snd (family []) in
  exists h1 o1,
    child 0%nat "z" None h = (Ok 3%nat, h1)
    /\ length h1 = 4%nat
    /\ (forall a oa, a <> 0%nat -> h !! a = Some oa -> h1 !! a = Some oa)
    /\ h1 !! 0%nat = Some o1
    /\ children o1 = [("a", 1%nat); ("z", 3%nat)]
    /\ base o1 = BaseClock.mk (Deque.mk 10 []) /\ _start o1 = None
    /\ name o1 = "root" /\ parent o1 = None.
Proof.
  intros h.
  refine (X11_child_creation_frame h 0%nat
            (set_children [("a", 1%nat)]
               (StopWatch.mk (BaseClock.mk (Deque.mk 10 []))
                  "root" None [] None))
            "z" None _ _ _).
  - reflexivity.
  - reflexivity.
  - unfold capacity. simpl. lia.
Defined.

(** ** Position of a node in the tree *)

Section Chains.

Implicit Types (h : store) (o : StopWatch.t) (self : addr).

Lemma chain_functional h a ps :
  chain h a ps -> forall ps', chain h a ps' -> ps = ps'.
Proof.
  induction 1 as [a o H Hp | a o p ps H Hp _ IH]; intros ps' Hch';
    inversion Hch'; subst; try congruence.
  assert (p0 = p) as -> by congruence. f_equal. apply IH. assumption.
Qed.

Lemma chain_allocated h a ps : chain h a ps -> is_Some (h !! a).
Proof. inversion 1; eauto. Qed.

(** In a store in good shape [parents] returns the chain and nothing
    else. *)
Lemma parents_chain h a ps :
  wf h -> chain h a ps -> parents h a = Some ps.
Proof.
  intros Hwf Hch. destruct (chain_allocated _ _ _ Hch) as [o H].
  destruct (parents_from_chain h Hwf (length h) a o H
              (lookup_lt_Some _ _ _ H)) as (ps' & Hps & Hch').
  unfold parents. rewrite Hps. f_equal.
  apply (chain_functional _ _ _ Hch' _ Hch).
Qed.

Lemma adopt_old_lookup h self o nm n a oa :
  h !! self = Some o -> h !! a = Some oa ->
  exists oa', adopt h self o nm n !! a = Some oa'
    /\ parent oa' = parent oa /\ name oa' = name oa.
Proof.
  intros H Ha. destruct (adopt_old h self o nm n a oa H Ha) as [Hp Hn].
  destruct (adopt h self o nm n !! a) as [oa' |]; [| discriminate].
  exists oa'. simpl in *. split; [reflexivity |]. split; congruence.
Qed.

(** Creating a child leaves the ancestors of every older node alone. *)
Lemma chain_adopt h self o nm n a ps :
  h !! self = Some o -> chain h a ps -> chain (adopt h self o nm n) a ps.
Proof.
  intros H. induction 1 as [a oa Ha Hp | a oa p ps Ha Hp _ IH];
    destruct (adopt_old_lookup h self o nm n a oa H Ha) as (oa' & Ha' & Hp' & _).
  - eapply chain_root; [exact Ha' | congruence].
  - eapply chain_step; [exact Ha' | congruence | exact IH].
Qed.

Lemma names_adopt h self o nm n a ps :
  h !! self = Some o -> chain h a ps ->
  name_of (adopt h self o nm n) a = name_of h a
  /\ map (name_of (adopt h self o nm n)) ps = map (name_of h) ps.
Proof.
  intros H. induction 1 as [a oa Ha Hp | a oa p ps Ha Hp _ IH];
    destruct (adopt_old_lookup h self o nm n a oa H Ha) as (oa' & Ha' & _ & Hn');
    (assert (Hna : name_of (adopt h self o nm n) a = name_of h a)
       by (unfold name_of; rewrite Ha, Ha'; exact Hn')).
  - auto.
  - destruct IH as [IH1 IH2]. split; [assumption |].
    cbn [map]. f_equal; assumption.
Qed.

Lemma string_app_assoc (a b c : string) : (a +:+ b) +:+ c = a +:+ (b +:+ c).
Proof.
  induction a as [| x a IH]; [reflexivity |].
  change (String x ((a +:+ b) +:+ c) = String x (a +:+ (b +:+ c))).
  f_equal. exact IH.
Qed.

Lemma join_snoc (sep x : string) (l : list string) :
  l <> [] -> join sep (l ++ [x]) = join sep l +:+ sep +:+ x.
Proof.
  induction l as [| y l IH]; [contradiction |]. intros _.
  destruct l as [| z l]; [reflexivity |].
  change (join sep ((y :: z :: l) ++ [x]))
    with (y +:+ sep +:+ join sep ((z :: l) ++ [x])).
  rewrite IH by discriminate.
  change (join sep (y :: z :: l)) with (y +:+ sep +:+ join sep (z :: l)).
  rewrite !string_app_assoc. reflexivity.
Qed.

End Chains.

(** X12. A newly created child is one level below the calling node and
    its full name is the full name of the calling node, a dot and the
    name of the child. The ancestors, the level and the full name of
    every older node stay what they were. *)
Theorem X12_new_child_position
    (h : store) (self : addr) (o : StopWatch.t) (nm : string)
    (mi : option Z) :
  wf h -> h !! self = Some o -> dict_get (children o) nm = None ->
  0 <= match mi with Some n => n | None => capacity o end ->
  exists h1 lvl fn,
    child self nm mi h = (Ok (length h), h1)
    /\ level h self = Some lvl /\ full_name h self = Some fn
    /\ level h1 (length h) = Some (S lvl)
    /\ full_name h1 (length h) = Some (fn +:+ "." +:+ nm)
    /\ (forall a, is_Some (h !! a) ->
          parents h1 a = parents h a
          /\ level h1 a = level h a
          /\ full_name h1 a = full_name h a).
Proof.
  intros Hwf H Hnew Hn.
  set (n := match mi with Some n => n | None => capacity o end) in *.
  assert (Hwf1 : wf (adopt h self o nm n)) by (apply wf_adopt; assumption).
  destruct (parents_from_chain h Hwf (length h) self o H
              (lookup_lt_Some _ _ _ H)) as (ps & Hps & Hch).
  fold (parents h self) in Hps.
  exists (adopt h self o nm n), (length ps),
         (join "." ((name_of h <$> reverse ps) ++ [name o])).
  split; [apply (child_new _ _ _ _ _ H Hnew Hn) |].
  split; [unfold level; rewrite Hps; reflexivity |].
  split.
  { unfold full_name. rewrite Hps. simpl.
    unfold name_of at 1. rewrite H, reverse_cons, fmap_reverse. reflexivity. }
  assert (Hc : chain (adopt h self o nm n) (length h) (self :: ps)).
  { eapply chain_step; [apply adopt_new | reflexivity |].
    apply chain_adopt; assumption. }
  pose proof (parents_chain _ _ _ Hwf1 Hc) as Hpc.
  split; [unfold level; rewrite Hpc; reflexivity |].
  split.
  { unfold full_name. rewrite Hpc. simpl.
    unfold name_of at 1. rewrite adopt_new. simpl.
    destruct (names_adopt h self o nm n self ps H Hch) as [Hn1 Hn2].
    cbn [map]. rewrite Hn1, Hn2. unfold name_of at 1. rewrite H.
    rewrite <- join_snoc.
    2: { intros E. apply app_eq_nil in E as [_ E]. discriminate. }
    rewrite fmap_reverse, !reverse_cons. reflexivity. }
  intros a [oa Ha].
  destruct (parents_from_chain h Hwf (length h) a oa Ha
              (lookup_lt_Some _ _ _ Ha)) as (pa & Hpa & Hcha).
  fold (parents h a) in Hpa.
  pose proof (parents_chain _ _ _ Hwf1 (chain_adopt h self o nm n a pa H Hcha))
    as Hpa1.
  split; [congruence |]. split; [unfold level; congruence |].
  unfold full_name. rewrite Hpa, Hpa1. simpl.
  destruct (names_adopt h self o nm n a pa H Hcha) as [Hn1 Hn2].
  rewrite Hn1, Hn2. reflexivity.
Qed.

Lemma X12_new_child_position_witness :
  let h := snd (family []) in
  exists h1 lvl fn,
    child 1%nat "z" None h = (Ok 3%nat, h1)
    /\ level h 1%nat = Some lvl /\ full_name h 1%nat = Some fn
    /\ level h1 3%nat = Some (S lvl)
    /\ full_name h1 3%nat = Some (fn +:+ "." +:+ "z")
    /\ (forall a, is_Some (h !! a) ->
          parents h1 a = parents h a
          /\ level h1 a = level h a
          /\ full_name h1 a = full_name h a).
Proof.
  intros h.
  pose (root := StopWatch.mk (BaseClock.mk (Deque.mk 10 []))
                  "root" None [] None).
  refine (X12_new_child_position h 1%nat
            (set_children [("b", 2%nat)] (newborn 0%nat "a" 10))
            "z" None _ _ _ _).
  - change h with (adopt (adopt [root] 0%nat root "a" 10)
                     1%nat (newborn 0%nat "a" 10) "b" 10).
    apply wf_adopt; [apply wf_adopt | reflexivity | lia];
      [apply (wf_init [] "root" 10 wf_nil); lia | reflexivity | lia].
  - reflexivity.
  - reflexivity.
  - unfold capacity. simpl. lia.
Defined.

(** X13. Where the parent links never reach a root, the walk up the
    parents never ends: [parents] yields ancestors for ever, so [level]
    and [full_name] do not return. Here [P] holds of a set of nodes each
    of which has a parent in the set. *)
Theorem X13_parents_of_a_cycle
    (h : store) (P : addr -> Prop) :
  (forall a, P a ->
     exists o p, h !! a = Some o /\ parent o = Some p /\ P p) ->
  forall a, P a ->
    (forall fuel, parents_from fuel h a = None)
    /\ parents h a = None /\ level h a = None /\ full_name h a = None.
Proof.
  intros Hclosed.
  assert (Hnever : forall fuel a, P a -> parents_from fuel h a = None).
  { induction fuel as [| fuel IH]; intros a Ha; [reflexivity |].
    destruct (Hclosed a Ha) as (o & p & Ho & Hp & HPp).
    simpl. rewrite Ho, Hp, (IH p HPp). reflexivity. }
  intros a Ha. split; [intros fuel; apply Hnever, Ha |].
  unfold level, full_name, parents. rewrite (Hnever _ _ Ha). auto.
Qed.

Lemma X13_parents_of_a_cycle_witness :
  let b := BaseClock.mk (Deque.mk 10 []) in
  let h := [StopWatch.mk b "x" (Some 1%nat) [("y", 1%nat)] None;
            StopWatch.mk b "y" (Some 0%nat) [("x", 0%nat)] None] in
  (forall fuel, parents_from fuel h 0%nat = None)
  /\ parents h 0%nat = None /\ level h 0%nat = None
  /\ full_name h 0%nat = None.
Proof.
  intros b h.
  apply (X13_parents_of_a_cycle h (fun a => (a < 2)%nat)); [| lia].
  intros [| [| a]] Ha; [| | lia].
  - eexists _, 1%nat. repeat split. lia.
  - eexists _, 0%nat. repeat split. lia.
Defined.

(** ** Rendering of the children *)

Section RenderChildren.

Implicit Types (h : store) (o : StopWatch.t) (self : addr).

Lemma repr_all_ext (f g : addr -> option (result string)) (cs : list addr) :
  (forall c, c ∈ cs -> f c = g c) -> repr_all f cs = repr_all g cs.
Proof.
  induction cs as [| c r IH]; intros Hfg; [reflexivity |].
  cbn [repr_all]. rewrite (Hfg c (list_elem_of_here _ _)), IH; [reflexivity |].
  intros c' Hc'. apply Hfg, list_elem_of_further, Hc'.
Qed.

Lemma repr_all_Forall2 (f : addr -> option (result string)) (cs : list addr) :
  forall rs, repr_all f cs = Some (Ok rs) ->
    Forall2 (fun c s => f c = Some (Ok s)) cs rs.
Proof.
  induction cs as [| c r IH]; intros rs; cbn [repr_all].
  - intros [= <-]. constructor.
  - destruct (f c) as [[s | e] |] eqn:Hc; try discriminate.
    destruct (repr_all f r) as [[ss | e] |]; try discriminate.
    intros [= <-]. constructor; [exact Hc | apply IH; reflexivity].
Qed.

(** Enough fuel is enough: more of it does not change the text. *)
Lemma repr_from_stable h :
  wf h ->
  forall f1 f2 self o,
    h !! self = Some o ->
    (length h - self <= f1)%nat -> (length h - self <= f2)%nat ->
    repr_from f1 h self = repr_from f2 h self.
Proof.
  intros Hwf. induction f1 as [| f1 IH]; intros f2 self o H H1 H2.
  { apply lookup_lt_Some in H. lia. }
  destruct f2 as [| f2]; [apply lookup_lt_Some in H; lia |].
  cbn [repr_from]. rewrite H.
  destruct (level h self) as [lvl |]; [| reflexivity].
  destruct (fst (_repr_props self h)) as [props | e]; [| reflexivity].
  destruct (children o) as [| kc kr] eqn:Hch; [reflexivity |].
  rewrite (repr_all_ext (repr_from f1 h) (repr_from f2 h)); [reflexivity |].
  intros c Hc. rewrite <- Hch in Hc.
  destruct (wf_child_younger _ _ _ _ Hwf H Hc) as (oc & Hoc & Hlt).
  pose proof (lookup_lt_Some _ _ _ Hoc).
  apply (IH f2 c oc Hoc); lia.
Qed.

End RenderChildren.

(** X14. The text of a node is built from the texts of its children: in
    a store in good shape [__repr__] of a node returns the node's own
    properties followed, when it has children, by one [children=[...]]
    property that holds the texts [__repr__] returns for the children, in
    the order in which the children were created. *)
Theorem X14_rendering_composes
    (h : store) (self : addr) (o : StopWatch.t) :
  wf h -> h !! self = Some o ->
  exists lvl bprops texts,
    level h self = Some lvl
    /\ BaseClock._repr_props (base o) = (Ok bprops, base o)
    /\ Forall2 (fun c s => __repr__ h c = Some (Ok s))
               (snd <$> children o) texts
    /\ __repr__ h self
       = Some (Ok (render_node lvl
                     (("name=" +:+ name o) :: bprops
                        ++ match children o with
                           | [] => []
                           | _ :: _ => [children_prop lvl texts]
                           end))).
Proof.
  intros Hwf H.
  destruct (parents_from_chain h Hwf (length h) self o H
              (lookup_lt_Some _ _ _ H)) as (ps & Hps & _).
  destruct (base_repr_props (base o)) as (mn & me & mx & _ & _ & _ & Hb).
  set (bprops := match items _ with [] => [] | _ :: _ => _ end) in Hb.
  assert (Hlvl : level h self = Some (length ps)).
  { unfold level, parents. rewrite Hps. reflexivity. }
  pose proof (lookup_lt_Some _ _ _ H) as Hlt.
  unfold __repr__ at 2.
  destruct (length h) as [| f] eqn:Hlen; [lia |].
  cbn [repr_from]. rewrite Hlvl, H, (sw_repr_props _ _ _ _ H Hb). cbn [fst].
  destruct (children o) as [| kc kr] eqn:Hch.
  - exists (length ps), bprops, []. rewrite app_nil_r.
    split; [reflexivity |]. split; [assumption |].
    split; [apply Forall2_nil_2 | reflexivity].
  - assert (Hkid : forall c, c ∈ (snd <$> (kc :: kr)) ->
              exists oc, h !! c = Some oc /\ (length h - c <= f)%nat).
    { intros c Hc. rewrite <- Hch in Hc.
      destruct (wf_child_younger _ _ _ _ Hwf H Hc) as (oc & Hoc & Hyoung).
      exists oc. split; [assumption | lia]. }
    destruct (repr_all_ok (repr_from f h) (snd <$> (kc :: kr)))
      as (rs & Hrs & _).
    { intros c Hc. destruct (Hkid c Hc) as (oc & Hoc & Hf).
      destruct (repr_from_ok h Hwf f c oc Hoc Hf)
        as (l & b & k & _ & _ & Hr & _). eauto. }
    rewrite Hrs. exists (length ps), bprops, rs.
    split; [reflexivity |]. split; [assumption |]. split; [| reflexivity].
    apply repr_all_Forall2.
    rewrite <- Hrs. symmetry. apply repr_all_ext.
    intros c Hc. destruct (Hkid c Hc) as (oc & Hoc & Hf).
    unfold __repr__. apply (repr_from_stable h Hwf _ _ c oc Hoc); lia.
Qed.

Lemma X14_rendering_composes_witness :
  let h := snd (family []) in
  exists lvl bprops texts,
    level h 0%nat = Some lvl
    /\ BaseClock._repr_props (BaseClock.mk (Deque.mk 10 []))
       = (Ok bprops, BaseClock.mk (Deque.mk 10 []))
    /\ Forall2 (fun c s => __repr__ h c = Some (Ok s)) [1%nat] texts
    /\ __repr__ h 0%nat
       = Some (Ok (render_node lvl
                     (("name=" +:+ "root") :: bprops
                        ++ [children_prop lvl texts]))).
Proof.
  intros h.
  pose (root := StopWatch.mk (BaseClock.mk (Deque.mk 10 []))
                  "root" None [] None).
  refine (X14_rendering_composes h 0%nat
            (set_children [("a", 1%nat)] root) _ _).
  - change h with (adopt (adopt [root] 0%nat root "a" 10)
                     1%nat (newborn 0%nat "a" 10) "b" 10).
    apply wf_adopt; [apply wf_adopt | reflexivity | lia];
      [apply (wf_init [] "root" 10 wf_nil); lia | reflexivity | lia].
  - reflexivity.
Defined.

(** ** Stores built by calls *)

Section Built.

Implicit Types (h : store) (o : StopWatch.t) (self : addr).

Lemma shape_nil : shape [].
Proof.
  split; [apply wf_nil |]. intros a o H. rewrite lookup_nil in H. discriminate.
Qed.

Lemma tidy_update h self o o' :
  tidy h -> h !! self = Some o ->
  parent o' = parent o -> children o' = children o -> name o' = name o ->
  len (BaseClock.intervals (base o')) <= capacity o' ->
  tidy (<[self := o']> h).
Proof.
  intros Ht H Hp Hc Hn Hlen a oa Ha.
  assert (Hkids : forall p op, h !! p = Some op ->
            exists op', <[self := o']> h !! p = Some op'
                        /\ children op' = children op).
  { intros p op Hop. destruct (decide (self = p)) as [<- | Hne].
    - exists o'. rewrite (lookup_insert_self _ _ _ _ H).
      split; [reflexivity | congruence].
    - exists op. rewrite list_lookup_insert_ne by assumption. auto. }
  assert (Hfrom : exists oa0, h !! a = Some oa0 /\ parent oa = parent oa0
            /\ name oa = name oa0
            /\ len (BaseClock.intervals (base oa)) <= capacity oa).
  { destruct (decide (self = a)) as [<- | Hne].
    - rewrite (lookup_insert_self _ _ _ _ H) in Ha. injection Ha as <-.
      exists o. auto.
    - rewrite list_lookup_insert_ne in Ha by assumption.
      exists oa. destruct (Ht _ _ Ha) as [_ ?]. auto. }
  destruct Hfrom as (oa0 & Ha0 & Hpa & Hna & Hla).
  split; [| exact Hla].
  intros p Hpp. rewrite Hpa in Hpp.
  destruct (Ht _ _ Ha0) as [Hlink _].
  destruct (Hlink p Hpp) as (op & Hop & Hget).
  destruct (Hkids p op Hop) as (op' & Hop' & Hch).
  exists op'. split; [assumption |]. rewrite Hch, Hna. exact Hget.
Qed.

Lemma tidy_init h nm n :
  tidy h -> 0 <= n ->
  tidy (h ++ [StopWatch.mk (BaseClock.mk (Deque.mk n [])) nm None [] None]).
Proof.
  intros Ht Hn a oa Ha. apply lookup_snoc_Some in Ha as [[Hlt Ha] | [-> <-]].
  - destruct (Ht _ _ Ha) as [Hlink Hlen]. split; [| exact Hlen].
    intros p Hp. destruct (Hlink p Hp) as (op & Hop & Hget).
    exists op. split; [apply lookup_app_l_Some, Hop | exact Hget].
  - split; [discriminate |]. unfold len, capacity. simpl. lia.
Qed.

Lemma tidy_adopt h self o nm n :
  tidy h -> h !! self = Some o -> dict_get (children o) nm = None ->
  0 <= n -> tidy (adopt h self o nm n).
Proof.
  intros Ht H Hnew Hn a oa Ha.
  pose proof (lookup_lt_Some _ _ _ H) as Hlt.
  set (o' := set_children (children o ++ [(nm, length h)]) o).
  assert (Hself : adopt h self o nm n !! self = Some o')
    by (apply adopt_self, H).
  assert (Hkids : forall p op k c, h !! p = Some op ->
            dict_get (children op) k = Some c ->
            exists op', adopt h self o nm n !! p = Some op'
                        /\ dict_get (children op') k = Some c).
  { intros p op k c Hop Hget. destruct (decide (self = p)) as [<- | Hne].
    - exists o'. split; [exact Hself |]. simpl.
      rewrite H in Hop. injection Hop as <-.
      rewrite dict_get_snoc, Hget. reflexivity.
    - exists op. split; [| exact Hget]. unfold adopt.
      apply lookup_app_l_Some. rewrite list_lookup_insert_ne by assumption.
      exact Hop. }
  unfold adopt in Ha. fold o' in Ha.
  apply lookup_snoc_Some in Ha as [[Ha_lt Ha] | [Ha_eq <-]].
  - assert (Hfrom : exists oa0, h !! a = Some oa0 /\ parent oa = parent oa0
              /\ name oa = name oa0
              /\ len (BaseClock.intervals (base oa)) <= capacity oa).
    { destruct (decide (self = a)) as [<- | Hne].
      - rewrite (lookup_insert_self _ _ _ _ H) in Ha. injection Ha as <-.
        exists o. destruct (Ht _ _ H) as [_ ?]. auto.
      - rewrite list_lookup_insert_ne in Ha by assumption.
        exists oa. destruct (Ht _ _ Ha) as [_ ?]. auto. }
    destruct Hfrom as (oa0 & Ha0 & Hpa & Hna & Hla).
    split; [| exact Hla].
    intros p Hpp. rewrite Hpa in Hpp.
    destruct (Ht _ _ Ha0) as [Hlink _].
    destruct (Hlink p Hpp) as (op & Hop & Hget).
    rewrite Hna. apply (Hkids p op _ _ Hop Hget).
  - rewrite length_insert in Ha_eq. subst a.
    split; [| unfold len, capacity; simpl; lia].
    intros p [= <-]. exists o'. split; [exact Hself |]. simpl.
    rewrite dict_get_snoc, Hnew, String.eqb_refl. reflexivity.
Qed.

(** The stores one call can lead to. *)
Lemma child_outcome h self nm mi :
  snd (child self nm mi h) = h
  \/ exists o n, h !! self = Some o /\ dict_get (children o) nm = None
       /\ 0 <= n /\ snd (child self nm mi h) = adopt h self o nm n.
Proof.
  destruct (h !! self) as [o |] eqn:H.
  2: { left. unfold child, bind, load. rewrite H. reflexivity. }
  destruct (dict_get (children o) nm) as [c |] eqn:Hget.
  { left. rewrite (child_cached _ _ _ _ _ _ H Hget). reflexivity. }
  set (n := match mi with Some n => n | None => capacity o end).
  destruct (Z.ltb_spec n 0) as [Hneg | Hpos].
  - left. unfold child, bind. rewrite (load_spec _ _ _ H), Hget.
    unfold __init__, BaseClock.__init__, Deque.new. fold n.
    destruct (Z.ltb_spec n 0); [reflexivity | lia].
  - right. exists o, n. rewrite (child_new _ _ _ _ _ H Hget Hpos). auto.
Qed.

Lemma shape_call h h' : shape h -> call h h' -> shape h'.
Proof.
  intros [Hwf Ht] [(nm & n & ->) | [(self & nm & mi & ->)
                  | [(now & self & ->) | (now & self & ->)]]].
  - unfold __init__, BaseClock.__init__, Deque.new.
    destruct (Z.ltb_spec n 0); simpl; [split; assumption |].
    split; [apply wf_init | apply tidy_init]; assumption.
  - destruct (child_outcome h self nm mi)
      as [-> | (o & n & H & Hnew & Hn & ->)]; [split; assumption |].
    split; [apply wf_adopt | apply tidy_adopt]; assumption.
  - destruct (h !! self) as [o |] eqn:H.
    2: { unfold __enter__, bind, modify. rewrite H. split; assumption. }
    rewrite (enter_spec _ _ _ _ H). simpl.
    destruct (Hwf _ _ H) as (_ & _ & Hcap). destruct (Ht _ _ H) as [_ Hlen].
    split; [apply (wf_update h self o) | apply (tidy_update h self o)]; auto.
  - destruct (h !! self) as [o |] eqn:H.
    2: { unfold __exit__, bind, load. rewrite H. split; assumption. }
    destruct (_start o) as [s |] eqn:Hs.
    2: { rewrite (exit_idle _ _ _ _ H Hs). split; assumption. }
    rewrite (exit_spec _ _ _ _ _ H Hs). simpl.
    destruct (Hwf _ _ H) as (_ & _ & Hcap). destruct (Ht _ _ H) as [_ Hlen].
    split; [apply (wf_update h self o) | apply (tidy_update h self o)]; auto.
    + rewrite measured_capacity. exact Hcap.
    + rewrite measured_capacity. unfold measured, capacity in *. simpl.
      apply append_len; assumption.
Qed.

End Built.

(** X15. Whatever sequence of constructor, [child], [__enter__] and
    [__exit__] calls a program makes, whether they return or raise, the
    stop watches form a forest: a parent is older than its child, every
    entry of a [children] dict names a node whose parent is the owner of
    the dict and whose name is the key, every node with a parent is
    registered under its own name in the children of that parent, no
    capacity is negative and no history is longer than its capacity. *)
Theorem X15_calls_keep_the_forest (h : store) :
  built h -> wf h /\ tidy h.
Proof.
  unfold built. intros Hb.
  assert (Hgen : forall h0, shape h0 -> rtc call h0 h -> shape h).
  { clear Hb. intros h0 H0 Hr. induction Hr as [| ? ? ? Hc _ IH];
      [assumption |]. apply IH, (shape_call _ _ H0 Hc). }
  apply (Hgen [] shape_nil Hb).
Qed.


Lemma X15_calls_keep_the_forest_witness :
  wf (snd (family [])) /\ tidy (snd (family [])).
Proof.
  apply X15_calls_keep_the_forest. unfold built.
  eapply rtc_l; [left; exists "root", 10; reflexivity |].
  eapply rtc_l; [right; left; exists 0%nat, "a", None; reflexivity |].
  eapply rtc_l; [right; left; exists 1%nat, "b", None; reflexivity |].
  apply rtc_refl.
Defined.

(** X16. The program at the end of the module, for any readings of the
    clock: it ends without an exception; every node holds one duration
    per bracket, [subtask1_1], which is used twice, holds two; the
    children of [task1] inherit its capacity 5 and [task2] the capacity
    10 of the root; no bracket stays open. *)
Theorem X16_main_block (r : nat -> Q) :
  exists h, main_stopwatch r [] = (Ok 0%nat, h)
    /\ (samples <$> h) = [ [(r 13%nat - r 0%nat)%Q]; [(r 10%nat - r 1%nat)%Q];
                          [(r 3%nat - r 2%nat)%Q; (r 9%nat - r 8%nat)%Q];
                          [(r 5%nat - r 4%nat)%Q]; [(r 7%nat - r 6%nat)%Q];
                          [(r 12%nat - r 11%nat)%Q] ]
    /\ (capacity <$> h) = [10; 5; 5; 5; 5; 10]
    /\ (_start <$> h) = [None; None; None; None; None; None]
    /\ (full_name h <$> [0; 1; 2; 3; 4; 5]%nat)
       = [Some "root"; Some "root.task1"; Some "root.task1.subtask1_1";
          Some "root.task1.subtask1_2"; Some "root.task1.subtask1_3";
          Some "root.task2"].
Proof.
  eexists. split; [vm_compute; reflexivity |].
  vm_compute. repeat split.
Qed.


(** ** A history of capacity zero *)

(** X17. A capacity of zero is accepted and gives a history that drops
    every sample at once: whatever is appended, it stays empty, its four
    statistics are 0 and its text is the bare class name. *)
Theorem X17_capacity_zero_keeps_nothing (xs : list Q) (cls : string) :
  exists b0, BaseClock.__init__ 0 = Ok b0 /\
    let b := BaseClock.records xs b0 in
    items (BaseClock.intervals b) = []
    /\ BaseClock.min b = (Ok 0%Q, b) /\ BaseClock.max b = (Ok 0%Q, b)
    /\ BaseClock.mean b = (Ok 0%Q, b) /\ BaseClock.freq b = (Ok 0%Q, b)
    /\ BaseClock.__repr__ cls b = (Ok ("<" +:+ cls +:+ ">"), b).
Proof.
  exists (BaseClock.mk (Deque.mk 0 [])). split; [reflexivity |].
  destruct (records_newest 0 xs ltac:(lia)) as [_ Hi]. simpl in Hi.
  assert (He : items (BaseClock.intervals
                        (BaseClock.records xs (BaseClock.mk (Deque.mk 0 []))))
               = []).
  { rewrite Hi. unfold last_n. rewrite Nat.sub_0_r. apply drop_all. }
  cbv zeta.
  destruct (BaseClock.records xs (BaseClock.mk (Deque.mk 0 [])))
    as [[m i]]. simpl in He. subst i.
  repeat split.
Qed.
